(** * SYCL GPU backend: kernel-argument binding, dispatch and buffer storage

    A shallow embedding of
    - [src/sycl/sycl_ocl_gpu_kernel.cpp]  ([set_scalar_arg], the destructor and
      [parallel_for] of [sycl_ocl_gpu_kernel_t]),
    - the header of [sycl_buffer_memory_storage_t], and
    - [create_memory_t] and the USM guard of [gemm_generic] in
      [src/sycl/cxxapi/gemm.cpp].

    C++ control effects are explicit: a call returns normally, throws, or
    stops the process in a failed [assert].  The two preprocessor switches the
    kernel file depends on ([MKLDNN_SYCL_MEMORY_API] and [NDEBUG]) are a value
    of type [build_t]; declarations that live outside the files above
    ([compute::nd_range_t], the range conversions, the SYCL kernel
    constructor, [get_sycl_buffer]) are the fields of the class
    [compute_runtime]. *)

From Stdlib Require Import ZArith Lia Ascii.
From stdpp Require Import base numbers list strings gmap sorting.

Local Open Scope string_scope.
Local Open Scope nat_scope.
Local Open Scope list_scope.
Local Open Scope stdpp_scope.

(** ** Build configuration *)

Inductive memory_api_t :=
  | MKLDNN_SYCL_MEMORY_API_BUFFER
  | MKLDNN_SYCL_MEMORY_API_USM
  | MKLDNN_SYCL_MEMORY_API_VPTR.

Record build_t := Build {
  MKLDNN_SYCL_MEMORY_API : memory_api_t;
  NDEBUG : bool  (* [true]: [assert] expands to nothing *)
}.

(** ** Results of a C++ call *)

Inductive status_t := success | unimplemented | runtime_error.

Inductive exception :=
  | std_runtime_error (what : string)
  | sycl_exception
  | dnnl_error (status : status_t) (message : string).

Inductive outcome (A : Type) :=
  | Normal (a : A)
  | Throws (e : exception)
  | Aborts (expr : string).
Arguments Normal {A} a.
Arguments Throws {A} e.
Arguments Aborts {A} expr.

Definition obind {A B} (m : outcome A) (f : A → outcome B) : outcome B :=
  match m with
  | Normal a => f a
  | Throws e => Throws e
  | Aborts s => Aborts s
  end.

Declare Scope outcome_scope.
Delimit Scope outcome_scope with outcome.
Notation "x ←! m ; k" := (obind m (λ x, k))
  (at level 20, m at level 100, k at level 200, only parsing) : outcome_scope.
Notation "m ;! k" := (obind m (λ _, k))
  (at level 100, k at level 200, right associativity, only parsing) : outcome_scope.
Local Open Scope outcome_scope.

(** [assert(cond)] from <cassert>: nothing under [NDEBUG], otherwise the
    process stops when [cond] is false. *)
Definition c_assert (cfg : build_t) (cond : bool) (expr : string) : outcome unit :=
  if NDEBUG cfg then Normal tt
  else if cond then Normal tt else Aborts expr.

(** ** Native objects *)

(** Pointers and native handles are addresses; [0] is [nullptr]. *)
Abbreviation cl_kernel := N (only parsing).
Abbreviation context := N (only parsing).
Abbreviation vptr_t := N (only parsing).
Abbreviation usm_ptr_t := N (only parsing).

(** A SYCL buffer object is a reference to a runtime-managed allocation:
    copies of a buffer share [mem_object]. *)
Record buffer_t := Buffer {
  mem_object : N;
  get_count : N;
  elem_size : N
}.
Abbreviation buffer_u8_t := buffer_t (only parsing).

Global Instance buffer_t_eq_dec : EqDecision buffer_t.
Proof. solve_decision. Defined.

Definition get_size (b : buffer_t) : N := (get_count b * elem_size b)%N.

(** [buf.reinterpret<uint8_t>(range<1>(n))] *)
Definition reinterpret_u8 (b : buffer_t) (n : N) : buffer_u8_t :=
  {| mem_object := mem_object b; get_count := n; elem_size := 1%N |}.

Record cl_sycl_kernel := SyclKernel {
  kernel_handle : cl_kernel;
  kernel_context : context
}.

(** Declarations used by [parallel_for] whose definitions are in other
    headers ([compute/], [sycl_utils.hpp], the SYCL runtime). *)
Class compute_runtime := {
  nd_range_t : Type;
  is_zero : nd_range_t → bool;
  local_range : nd_range_t → option (list N);  (* [None] is [nullptr] *)
  sycl_range : Type;
  sycl_nd_range : Type;
  to_sycl_range : nd_range_t → sycl_range;
  to_sycl_nd_range : nd_range_t → sycl_nd_range;
  (* [false]: the constructor [cl::sycl::kernel(cl_kernel, context)] throws *)
  kernel_constructible : cl_kernel → context → bool;
  get_sycl_buffer : vptr_t → buffer_u8_t
}.

(** ** The command-group handler *)

Inductive access_mode := read | write | read_write.

(** What [cgh.set_arg] can receive in this file. *)
Inductive arg_value :=
  | arg_uint (bytes : N) (v : Z)   (* [uint8_t], [uint16_t], [uint32_t], [uint64_t] *)
  | arg_accessor (mode : access_mode) (buf : buffer_u8_t)
  | arg_nullptr.

Section Handler.
Context `{RT : compute_runtime}.

Inductive command :=
  | set_arg (index : nat) (v : arg_value)
  | cgh_parallel_for_nd (r : sycl_nd_range) (k : cl_sycl_kernel)
  | cgh_parallel_for (r : sycl_range) (k : cl_sycl_kernel).

End Handler.

(** A handler records the calls made on it, oldest first. *)
Abbreviation handler := (list command).

(** A queue holds the command groups submitted to it, oldest first. *)
Abbreviation queue_t := (list handler).

Section Stream.
Context `{RT : compute_runtime}.

Record sycl_gpu_engine_t := Engine { engine_context : context }.

Record sycl_stream_t := Stream {
  engine : sycl_gpu_engine_t;
  queue : queue_t
}.

(** [queue.submit(cgf)]: the command-group function runs on a fresh
    handler; the group is enqueued when it returns, and what the function
    throws leaves [submit] with nothing enqueued.  Failures of the SYCL
    runtime itself are outside the model. *)
Definition submit (q : queue_t) (cgf : handler → outcome handler) : outcome queue_t :=
  cgh ←! cgf [];
  Normal (q ++ [cgh]).

(** [cl::sycl::kernel sycl_kernel(ocl_kernel, ctx)] *)
Definition make_sycl_kernel (k : cl_kernel) (ctx : context) : outcome cl_sycl_kernel :=
  if kernel_constructible k ctx then Normal (SyclKernel k ctx)
  else Throws sycl_exception.

End Stream.

(** ** Scalar arguments *)

(** The unsigned integer stored in little-endian order in [bs]. *)
Fixpoint le_to_Z (bs : list Byte.byte) : Z :=
  match bs with
  | [] => 0
  | b :: bs' => Z.of_N (Byte.to_N b) + 256 * le_to_Z bs'
  end.

(** The [n] bytes that hold [v] in little-endian order. *)
Fixpoint Z_to_le (n : nat) (v : Z) : list Byte.byte :=
  match n with
  | O => []
  | S n' =>
      default Byte.x00 (Byte.of_N (Z.to_N (v mod 256))) :: Z_to_le n' (v / 256)
  end.

(** [*static_cast<uintN_t *>(value)] for an [N]-byte integer, on a
    little-endian host; [value] holds the bytes behind the pointer, and
    bytes it does not hold read as zero. *)
Definition load_uint (bytes : N) (value : list Byte.byte) : Z :=
  le_to_Z (take (N.to_nat bytes) value).

Section SetScalarArg.
Context (cfg : build_t) `{RT : compute_runtime}.

Definition set_scalar_arg (cgh : handler) (index : nat) (size : N)
    (value : list Byte.byte) : outcome handler :=
  match size with
  | 1%N => Normal (cgh ++ [set_arg index (arg_uint 1%N (load_uint 1%N value))])
  | 2%N => Normal (cgh ++ [set_arg index (arg_uint 2%N (load_uint 2%N value))])
  | 4%N => Normal (cgh ++ [set_arg index (arg_uint 4%N (load_uint 4%N value))])
  | 8%N => Normal (cgh ++ [set_arg index (arg_uint 8%N (load_uint 8%N value))])
  | _ =>
      c_assert cfg false "Please add another case";!
      Throws (std_runtime_error "Internal error")
  end.
End SetScalarArg.

(** ** Kernel arguments *)

(** The backend storage class of a build: with the buffer API it exposes
    [buffer()], with the virtual-pointer API [vptr()], with USM a pointer. *)
Definition sycl_memory_storage_t (api : memory_api_t) : Type :=
  match api with
  | MKLDNN_SYCL_MEMORY_API_BUFFER => buffer_u8_t
  | MKLDNN_SYCL_MEMORY_API_USM => usm_ptr_t
  | MKLDNN_SYCL_MEMORY_API_VPTR => vptr_t
  end.

(** Modelled from the spec: [memory_storage_t] is declared in
    [common/memory_storage.hpp]; a storage is either null ([None]) or
    carries its backend implementation, returned by [impl()]. *)
Definition memory_storage_t (api : memory_api_t) : Type :=
  option (sycl_memory_storage_t api).

(** Modelled from the spec: [compute::kernel_arg_t], a tagged union of a
    memory-storage reference (global) and a scalar given by its byte width
    and raw bytes. *)
Inductive kernel_arg_t (api : memory_api_t) :=
  | global_arg (mem_storage : memory_storage_t api)
  | scalar_arg (size : N) (value : list Byte.byte).
Arguments global_arg {api} mem_storage.
Arguments scalar_arg {api} size value.

Definition is_global {api} (arg : kernel_arg_t api) : bool :=
  match arg with global_arg _ => true | scalar_arg _ _ => false end.

Abbreviation kernel_arg_list_t api := (list (kernel_arg_t api)).

(** ** The compiled-kernel wrapper *)

Record sycl_ocl_gpu_kernel_t := Kernel { ocl_kernel_ : cl_kernel }.

(** Calls into the OpenCL runtime, oldest first. *)
Inductive ocl_call := clReleaseKernel (k : cl_kernel).

(** [~sycl_ocl_gpu_kernel_t()]; [OCL_CHECK_V] only inspects the status that
    [clReleaseKernel] returns. *)
Definition sycl_ocl_gpu_kernel_t_dtor (self : sycl_ocl_gpu_kernel_t)
    (ocl : list ocl_call) : list ocl_call :=
  if (ocl_kernel_ self =? 0)%N then ocl
  else ocl ++ [clReleaseKernel (ocl_kernel_ self)].

Section ParallelFor.
Context (cfg : build_t) `{RT : compute_runtime}.

Local Abbreviation api := (MKLDNN_SYCL_MEMORY_API cfg).

(** The branch of the loop body taken for a global argument whose storage
    is not null (the [#if] on [MKLDNN_SYCL_MEMORY_API]). *)
Definition bind_storage (cgh : handler) (i : nat) :
    sycl_memory_storage_t api → outcome handler :=
  match api as a return sycl_memory_storage_t a → outcome handler with
  | MKLDNN_SYCL_MEMORY_API_BUFFER => λ sycl_buf,
      Normal (cgh ++ [set_arg i (arg_accessor read_write sycl_buf)])
  | MKLDNN_SYCL_MEMORY_API_USM => λ _,
      c_assert cfg false "false";!
      Normal cgh
  | MKLDNN_SYCL_MEMORY_API_VPTR => λ vptr,
      let buf := get_sycl_buffer vptr in
      let acc := arg_accessor read_write buf in
      Normal (cgh ++ [set_arg i acc])
  end.

(** The body of the loop over [arg_list]. *)
Definition bind_arg (cgh : handler) (i : nat) (arg : kernel_arg_t api) : outcome handler :=
  match arg with
  | global_arg mem_storage =>
      match mem_storage with
      | Some sycl_mem_storage => bind_storage cgh i sycl_mem_storage
      | None => Normal (cgh ++ [set_arg i arg_nullptr])
      end
  | scalar_arg size value => set_scalar_arg cfg cgh i size value
  end.

(** [for (int i = 0; i < arg_list.nargs(); ++i)], entered at index [i]
    with the arguments from [i] on. *)
Fixpoint bind_args (cgh : handler) (i : nat) (args : list (kernel_arg_t api)) :
    outcome handler :=
  match args with
  | [] => Normal cgh
  | arg :: rest =>
      cgh' ←! bind_arg cgh i arg;
      bind_args cgh' (S i) rest
  end.

(** The command-group function passed to [queue.submit]. *)
Definition command_group (range : nd_range_t) (arg_list : kernel_arg_list_t api)
    (sycl_kernel : cl_sycl_kernel) (cgh : handler) : outcome handler :=
  cgh ←! bind_args cgh 0 arg_list;
  match local_range range with
  | Some _ => Normal (cgh ++ [cgh_parallel_for_nd (to_sycl_nd_range range) sycl_kernel])
  | None => Normal (cgh ++ [cgh_parallel_for (to_sycl_range range) sycl_kernel])
  end.

(** [sycl_ocl_gpu_kernel_t::parallel_for]; the stream is passed by
    reference, so its state after the call is returned with the status.
    [utils::downcast] is a cast to the SYCL classes, which the stream and
    its engine have here by their types. *)
Definition parallel_for (self : sycl_ocl_gpu_kernel_t) (stream : sycl_stream_t)
    (range : nd_range_t) (arg_list : kernel_arg_list_t api) :
    outcome (status_t * sycl_stream_t) :=
  match api with
  | MKLDNN_SYCL_MEMORY_API_USM => c_assert cfg false "not implemented"
  | _ => Normal tt
  end;!
  if is_zero range then Normal (success, stream)
  else
    let sycl_engine := engine stream in
    sycl_kernel ←! make_sycl_kernel (ocl_kernel_ self) (engine_context sycl_engine);
    queue' ←! submit (queue stream) (command_group range arg_list sycl_kernel);
    Normal (success, {| engine := engine stream; queue := queue' |}).

End ParallelFor.

(** ** Observations on handlers and storages *)

Section Observations.
Context `{RT : compute_runtime}.

(** The kernel-argument slots of a command group: [set_arg] overwrites the
    slot it names, the other calls leave the slots alone. *)
Definition apply_command (slots : gmap nat arg_value) (c : command) : gmap nat arg_value :=
  match c with
  | set_arg j v => <[j := v]> slots
  | _ => slots
  end.

Definition kernel_args (cgh : handler) : gmap nat arg_value :=
  foldl apply_command ∅ cgh.

Definition is_set_arg (c : command) : bool :=
  match c with set_arg _ _ => true | _ => false end.

Definition is_dispatch (c : command) : bool := negb (is_set_arg c).

(** The slot indices of the [set_arg] calls of a handler, in call order. *)
Definition set_arg_indices (cgh : handler) : list nat :=
  omap (λ c, match c with set_arg j _ => Some j | _ => None end) cgh.

(** The dispatch that ends the command group of [parallel_for]. *)
Definition dispatch_of (range : nd_range_t) (k : cl_sycl_kernel) : command :=
  match local_range range with
  | Some _ => cgh_parallel_for_nd (to_sycl_nd_range range) k
  | None => cgh_parallel_for (to_sycl_range range) k
  end.

(** The buffer that the native handle of a backend storage resolves to:
    [buffer()] with the buffer API, [get_sycl_buffer(vptr())] with virtual
    pointers; a USM pointer has none. *)
Definition storage_buffer (a : memory_api_t) : sycl_memory_storage_t a → option buffer_u8_t :=
  match a with
  | MKLDNN_SYCL_MEMORY_API_BUFFER => λ sycl_buf, Some sycl_buf
  | MKLDNN_SYCL_MEMORY_API_USM => λ _, None
  | MKLDNN_SYCL_MEMORY_API_VPTR => λ vptr, Some (get_sycl_buffer vptr)
  end.

Definition supported_width (size : N) : bool :=
  ((size =? 1) || (size =? 2) || (size =? 4) || (size =? 8))%N.

(** What the loop body leaves in the slot of an argument when it returns
    normally: nothing for a non-null USM storage. *)
Definition slot_binding {a} (arg : kernel_arg_t a) : option arg_value :=
  match arg with
  | global_arg None => Some arg_nullptr
  | global_arg (Some s) => arg_accessor read_write <$> storage_buffer a s
  | scalar_arg size value => Some (arg_uint size (load_uint size value))
  end.

Definition bound_commands {a} (i : nat) (arg : kernel_arg_t a) : list command :=
  match slot_binding arg with
  | Some v => [set_arg i v]
  | None => []
  end.

(** The [set_arg] calls of a whole argument list, slot [i] first. *)
Definition binding_commands {a} (i : nat) (args : kernel_arg_list_t a) : list command :=
  concat (imap (λ k, bound_commands (i + k)) args).

(** Every scalar argument of the list has a width the binder knows. *)
Definition scalars_supported {a} (args : kernel_arg_list_t a) : bool :=
  forallb (λ arg, match arg with
                  | global_arg _ => true
                  | scalar_arg size _ => supported_width size
                  end) args.

(** The build is a USM build with assertions enabled: every [assert] that
    the USM branches place in [parallel_for] stops the call. *)
Definition usm_assert_fails (cfg : build_t) : bool :=
  match MKLDNN_SYCL_MEMORY_API cfg with
  | MKLDNN_SYCL_MEMORY_API_USM => negb (NDEBUG cfg)
  | _ => false
  end.

(** The loop body returns normally on this argument. *)
Definition arg_binds (cfg : build_t) (arg : kernel_arg_t (MKLDNN_SYCL_MEMORY_API cfg)) : bool :=
  match arg with
  | global_arg (Some _) => negb (usm_assert_fails cfg)
  | global_arg None => true
  | scalar_arg size _ => supported_width size
  end.

End Observations.

(** ** A runtime to run the model on *)

Record range3 := Range3 {
  global_range : list N;
  local_range3 : option (list N)
}.

#[global] Instance sample_runtime : compute_runtime := {|
  nd_range_t := range3;
  is_zero r := bool_decide (0%N ∈ global_range r);
  local_range := local_range3;
  sycl_range := list N;
  sycl_nd_range := list N * list N;
  to_sycl_range r := global_range r;
  to_sycl_nd_range r := (global_range r, default [] (local_range3 r));
  kernel_constructible k ctx := negb (k =? 0)%N;
  get_sycl_buffer vptr := Buffer vptr 0%N 1%N
|}.

Definition buffer_build := Build MKLDNN_SYCL_MEMORY_API_BUFFER false.
Definition buffer_release_build := Build MKLDNN_SYCL_MEMORY_API_BUFFER true.
Definition vptr_build := Build MKLDNN_SYCL_MEMORY_API_VPTR false.
Definition usm_build := Build MKLDNN_SYCL_MEMORY_API_USM false.
Definition usm_release_build := Build MKLDNN_SYCL_MEMORY_API_USM true.

Definition sample_stream : sycl_stream_t := Stream (Engine 1%N) [].
Definition sample_kernel : sycl_ocl_gpu_kernel_t := Kernel 42%N.
Definition storageA : buffer_u8_t := Buffer 7%N 256%N 1%N.
Definition int32_7 : list Byte.byte := [Byte.x07; Byte.x00; Byte.x00; Byte.x00].
Definition range_64 : range3 := Range3 [64; 1; 1]%N None.
Definition range_64_local_8 : range3 := Range3 [64; 1; 1]%N (Some [8; 1; 1]%N).
Definition range_zero : range3 := Range3 [0; 1; 1]%N None.

(** The end-to-end scenario: a 4-byte scalar 7, a storage, a null storage,
    over a 64-wide range with no local extent. *)
Definition scenario_args : kernel_arg_list_t MKLDNN_SYCL_MEMORY_API_BUFFER :=
  [scalar_arg 4%N int32_7;
   global_arg (api := MKLDNN_SYCL_MEMORY_API_BUFFER) (Some storageA);
   global_arg None].

(** The stream after the scenario, and after the same call over a range
    with a local extent of 8. *)
Definition scenario_stream : sycl_stream_t :=
  Stream (Engine 1%N)
    [[set_arg 0 (arg_uint 4%N 7%Z);
      set_arg 1 (arg_accessor read_write storageA);
      set_arg 2 arg_nullptr;
      cgh_parallel_for [64; 1; 1]%N (SyclKernel 42%N 1%N)]].

Definition scenario_stream_local : sycl_stream_t :=
  Stream (Engine 1%N)
    [[set_arg 0 (arg_uint 4%N 7%Z);
      set_arg 1 (arg_accessor read_write storageA);
      set_arg 2 arg_nullptr;
      cgh_parallel_for_nd ([64; 1; 1]%N, [8; 1; 1]%N) (SyclKernel 42%N 1%N)]].

(** * Memory storage *)

Module Storage.

(** The scoped enumeration [memory_api_kind_t]. *)
Module memory_api_kind_t.
Inductive t := buffer | usm.
End memory_api_kind_t.

(** The C++ objects of type [buffer_u8_t] that are alive, by address, and
    for those owned through [std::shared_ptr] the number of owners. *)
Record memory := Memory {
  objects : gmap N buffer_u8_t;
  use_count : gmap N nat
}.

(** [new]: an address that is not null and holds no live object. *)
Definition new_address (m : memory) : N := fresh ({[0%N]} ∪ dom (objects m)).

(** One owner of the object at [p] goes away; the last one deletes it. *)
Definition shared_ptr_release (p : N) (m : memory) : memory :=
  if (p =? 0)%N then m
  else match use_count m !! p with
       | Some (S (S n)) => Memory (objects m) (<[p := S n]> (use_count m))
       | _ => Memory (delete p (objects m)) (delete p (use_count m))
       end.

(** [sycl_buffer_memory_storage_t]: [buffer_] is the address held by the
    [std::shared_ptr] ([0] when empty); [offset_] is the field of the base
    class [memory_storage_t] that [set_offset] writes. *)
Record sycl_buffer_memory_storage_t := BufferStorage {
  buffer_ : N;
  offset_ : Z
}.

(** [buffer()]: [*buffer_]. *)
Definition buffer (self : sycl_buffer_memory_storage_t) (m : memory) : option buffer_u8_t :=
  objects m !! buffer_ self.

Definition memory_api_kind (self : sycl_buffer_memory_storage_t) : memory_api_kind_t.t :=
  memory_api_kind_t.buffer.

(** [get_data_handle(void **handle)]: the status and the value stored
    through [handle]. *)
Definition get_data_handle (self : sycl_buffer_memory_storage_t) : status_t * N :=
  (success, buffer_ self).

(** [set_data_handle(void *handle)]:
    [buffer_.reset(new buffer_u8_t( *buf_u8_ptr))].  The copy is made first,
    then the previous object loses this owner.  [None]: [handle] points to
    no live buffer, and dereferencing it is undefined. *)
Definition set_data_handle (self : sycl_buffer_memory_storage_t) (handle : N)
    (m : memory) : option (status_t * sycl_buffer_memory_storage_t * memory) :=
  buf_u8 ← objects m !! handle;
  let p := new_address m in
  let m1 := Memory (<[p := buf_u8]> (objects m)) (<[p := 1]> (use_count m)) in
  let m2 := shared_ptr_release (buffer_ self) m1 in
  Some (success, BufferStorage p (offset_ self), m2).

Definition base_offset (self : sycl_buffer_memory_storage_t) : Z := 0.

(** [memory_storage_t::set_offset(size_t)], declared in
    [common/memory_storage.hpp]. *)
Definition set_offset (self : sycl_buffer_memory_storage_t) (offset : Z) :
    sycl_buffer_memory_storage_t :=
  BufferStorage (buffer_ self) offset.

Definition offset (self : sycl_buffer_memory_storage_t) : Z := offset_ self.

(** Modelled from the spec: the pointer-backed storage class
    ([sycl_usm_memory_storage_t]) is not among the sources.  Its handle is the
    pointer itself, [set_data_handle] followed by [get_data_handle] gives the
    pointer back, and [base_offset()] is always zero. *)
Record sycl_usm_memory_storage_t := UsmStorage {
  usm_ptr_ : N;
  usm_offset_ : Z
}.

Definition usm_get_data_handle (self : sycl_usm_memory_storage_t) : status_t * N :=
  (success, usm_ptr_ self).

Definition usm_set_data_handle (self : sycl_usm_memory_storage_t) (handle : N) :
    status_t * sycl_usm_memory_storage_t :=
  (success, UsmStorage handle (usm_offset_ self)).

Definition usm_base_offset (self : sycl_usm_memory_storage_t) : Z := 0.

(** The storage holds no buffer, or the buffer it holds is alive. *)
Definition storage_ok (self : sycl_buffer_memory_storage_t) (m : memory) : Prop :=
  buffer_ self = 0%N ∨ is_Some (objects m !! buffer_ self).

(** ** [create_memory_t] *)

(** The product of a [dim_t] and a [size_t], as a [size_t]. *)
Definition size_t_mul (a b : Z) : Z := (a * b) mod 2 ^ 64.

(** [create_memory_t<memory_api_kind_t::buffer>::call<T>].  [mem] is the
    storage of the [memory_t] just created with [DNNL_MEMORY_NONE], to which
    [memory_t::set_data_handle] forwards; the local [buf_u8] lives at an
    address of its own until the call returns. *)
Definition create_memory_buffer_call (sizeof_T : Z)
    (mem : sycl_buffer_memory_storage_t) (offset : Z) (handle : N) (m : memory) :
    option (sycl_buffer_memory_storage_t * memory) :=
  buf ← objects m !! handle;
  let buf_u8 := reinterpret_u8 buf (get_size buf) in
  let local := new_address m in
  let m1 := Memory (<[local := buf_u8]> (objects m)) (use_count m) in
  '(_, mem, m2) ← set_data_handle mem local m1;
  let mem := set_offset mem (size_t_mul offset sizeof_T) in
  Some (mem, Memory (delete local (objects m2)) (use_count m2)).

(** [create_memory_t<memory_api_kind_t::usm>::call<T>]: the storage of a
    [memory_t] created over [handle], then [set_offset]. *)
Definition create_memory_usm_call (sizeof_T : Z) (offset : Z) (handle : N) :
    sycl_usm_memory_storage_t :=
  UsmStorage handle (size_t_mul offset sizeof_T).

(** ** The USM guard of [gemm_generic] *)

(** [error::wrap_c_api], declared in [dnnl.hpp]: throws [dnnl::error] with
    the status and message unless the status is success. *)
Definition wrap_c_api (status : status_t) (message : string) : outcome unit :=
  match status with
  | success => Normal tt
  | _ => Throws (dnnl_error status message)
  end.

(** The first statement of [gemm_generic], under [#ifndef DNNL_SYCL_INTEL]. *)
Definition gemm_generic_usm_check (DNNL_SYCL_INTEL : bool)
    (memory_api_kind : memory_api_kind_t.t) : outcome unit :=
  if DNNL_SYCL_INTEL then Normal tt
  else match memory_api_kind with
       | memory_api_kind_t.usm =>
           wrap_c_api runtime_error "USM interface is not supported."
       | memory_api_kind_t.buffer => Normal tt
       end.

(** A memory with one caller-owned [buffer<float, 1>] of 64 elements at
    address 16. *)
Definition sample_memory : memory :=
  Memory {[16%N := Buffer 7%N 64%N 4%N]} ∅.

Definition empty_storage : sycl_buffer_memory_storage_t := BufferStorage 0%N 0%Z.

(** A memory in which a storage is the only owner of the buffer object at
    address 32, and one in which the object has a second owner. *)
Definition owned_memory : memory :=
  Memory {[16%N := Buffer 7%N 64%N 4%N; 32%N := Buffer 9%N 128%N 1%N]}
         {[32%N := 1]}.

Definition shared_memory : memory :=
  Memory {[16%N := Buffer 7%N 64%N 4%N; 32%N := Buffer 9%N 128%N 1%N]}
         {[32%N := 2]}.

Definition owning_storage : sycl_buffer_memory_storage_t := BufferStorage 32%N 0%Z.

End Storage.

(** * The GEMM entry points *)

Module Gemm.
Import Storage.

Inductive data_type_t := f16 | f32.
Inductive engine_kind_t := cpu | gpu.
Inductive transpose_t := notrans | trans.

(** What [gemm_generic] asks of the [cl::sycl::device] of the queue. *)
Record device := Device { is_cpu : bool; is_host : bool; is_gpu : bool }.

Record sycl_queue := Queue { get_device : device; get_context : context }.

Record gemm_desc_t (float : Type) := GemmDesc {
  transa : transpose_t;
  transb : transpose_t;
  m : Z;
  n : Z;
  k : Z;
  lda : Z;
  ldb : Z;
  ldc : Z;
  alpha : float;
  beta : float;
  a_type : data_type_t;
  b_type : data_type_t;
  c_type : data_type_t
}.
Arguments GemmDesc {float}.
Arguments transa {float}.
Arguments transb {float}.
Arguments m {float}.
Arguments n {float}.
Arguments k {float}.
Arguments lda {float}.
Arguments ldb {float}.
Arguments ldc {float}.

(** The functions [gemm_generic] calls that are defined in other files,
    each with the status it returns. *)
Class gemm_library := {
  float : Type;
  check_gemm_input :
    ascii → ascii → Z → Z → Z → Z → Z → Z → float → float → status_t;
  engine_create : engine_kind_t → device → context → status_t;
  create_stream : sycl_queue → status_t;
  create_gemm_memory_desc : gemm_desc_t float → nat → data_type_t → status_t;
  primitive_desc_create : gemm_desc_t float → status_t;
  create_primitive : gemm_desc_t float → status_t;
  execute : gemm_desc_t float → status_t;
  wait : sycl_queue → status_t
}.

Section GemmGeneric.
Context `{L : gemm_library}.

(** The objects [gemm_generic] owns: the engine, the stream, the primitive
    descriptor and the three memories live in [std::unique_ptr]s, the
    primitive is released by hand. *)
Inductive resource :=
  | the_engine (kind : engine_kind_t)
  | the_stream
  | the_pd (op_desc : gemm_desc_t float)
  | the_memory (arg : nat) (api : memory_api_kind_t.t) (offset : Z) (handle : N)
  | the_primitive.

Inductive event :=
  | created (r : resource)
  | destroyed (r : resource)
  | executed
  | waited.

End GemmGeneric.

(** A run: what happened, oldest first, and how the call ended. *)
Abbreviation run := (list event * outcome unit)%type.

Section GemmGenericBody.
Context (cfg : build_t) `{L : gemm_library}.

(** A statement that creates nothing: the run goes on when it returns. *)
Definition step (o : outcome unit) (rest : run) : run :=
  match o with
  | Normal _ => rest
  | Throws e => ([], Throws e)
  | Aborts s => ([], Aborts s)
  end.

(** The scope of an owning local: the object is destroyed when the scope
    is left, by a return or by an exception on its way to a handler; a
    failed [assert] stops the process with the object alive. *)
Definition scoped (r : resource) (body : run) : run :=
  match body.2 with
  | Aborts s => (created r :: body.1, Aborts s)
  | o => (created r :: body.1 ++ [destroyed r], o)
  end.

(** Events that come before the rest of the run. *)
Definition after (events : list event) (rest : run) : run :=
  (events ++ rest.1, rest.2).

Definition is_success (s : status_t) : bool :=
  match s with success => true | _ => false end.

(** [( *trans == 'n' || *trans == 'N') ? notrans : trans] *)
Definition transpose_of (c : ascii) : transpose_t :=
  if (Ascii.eqb c "n"%char || Ascii.eqb c "N"%char)%bool then notrans else trans.

(** [gemm_generic<memory_api_kind, data_type, T>]. *)
Definition gemm_generic (DNNL_SYCL_INTEL : bool)
    (memory_api_kind : memory_api_kind_t.t) (data_type : data_type_t)
    (queue : sycl_queue) (transa transb : ascii) (m n k : Z) (alpha : float)
    (a : N) (offset_a lda : Z) (b : N) (offset_b ldb : Z) (beta : float)
    (c : N) (offset_c ldc : Z) : run :=
  step (gemm_generic_usm_check DNNL_SYCL_INTEL memory_api_kind) (
  step (wrap_c_api (check_gemm_input transa transb m n k lda ldb ldc alpha beta)
          "invalid arguments") (
  let dev := get_device queue in
  let ctx := get_context queue in
  step (if (is_cpu dev || is_host dev)%bool
        then wrap_c_api unimplemented "SYCL CPU GEMM not implemented"
        else c_assert cfg (is_gpu dev) "dev.is_gpu()") (
  let eng_kind := if (is_cpu dev || is_host dev)%bool then cpu else gpu in
  step (wrap_c_api (engine_create eng_kind dev ctx) "invalid queue") (
  scoped (the_engine eng_kind) (
  step (wrap_c_api (create_stream queue) "invalid queue") (
  scoped the_stream (
  let op_desc :=
    GemmDesc (transpose_of transa) (transpose_of transb) m n k lda ldb ldc
      alpha beta data_type data_type data_type in
  step (c_assert cfg (is_success (create_gemm_memory_desc op_desc 0 data_type))
          "status == status::success") (
  step (c_assert cfg (is_success (create_gemm_memory_desc op_desc 1 data_type))
          "status == status::success") (
  step (c_assert cfg (is_success (create_gemm_memory_desc op_desc 2 data_type))
          "status == status::success") (
  step (wrap_c_api (primitive_desc_create op_desc) "invalid arguments") (
  scoped (the_pd op_desc) (
  scoped (the_memory 0 memory_api_kind offset_a a) (
  scoped (the_memory 1 memory_api_kind offset_b b) (
  scoped (the_memory 2 memory_api_kind offset_c c) (
  step (wrap_c_api (create_primitive op_desc) "could not create a primitive") (
  let status := execute op_desc in
  after [created the_primitive; executed; destroyed the_primitive] (
  step (wrap_c_api status "could not execute a primitive") (
  after [waited] (
  ([], wrap_c_api (wait queue) "could not wait a stream")))))))))))))))))))).

(** The public overloads: the row-major operands are handed over swapped. *)
Definition gemm_buffer (data_type : data_type_t) (DNNL_SYCL_INTEL : bool)
    (queue : sycl_queue) (transa transb : ascii) (m n k : Z) (alpha : float)
    (a : N) (offset_a lda : Z) (b : N) (offset_b ldb : Z) (beta : float)
    (c : N) (offset_c ldc : Z) : run :=
  gemm_generic DNNL_SYCL_INTEL memory_api_kind_t.buffer data_type queue
    transb transa n m k alpha b offset_b ldb a offset_a lda beta c offset_c ldc.

Definition gemm_usm (data_type : data_type_t) (DNNL_SYCL_INTEL : bool)
    (queue : sycl_queue) (transa transb : ascii) (m n k : Z) (alpha : float)
    (a : N) (lda : Z) (b : N) (ldb : Z) (beta : float) (c : N) (ldc : Z) : run :=
  gemm_generic DNNL_SYCL_INTEL memory_api_kind_t.usm data_type queue
    transb transa n m k alpha b 0 ldb a 0 lda beta c 0 ldc.

(** The objects of one call, in the order in which the call creates them. *)
Definition gemm_resources (memory_api_kind : memory_api_kind_t.t)
    (data_type : data_type_t) (transa transb : ascii) (m n k : Z) (alpha : float)
    (a : N) (offset_a lda : Z) (b : N) (offset_b ldb : Z) (beta : float)
    (c : N) (offset_c ldc : Z) : list resource :=
  [the_engine gpu; the_stream;
   the_pd (GemmDesc (transpose_of transa) (transpose_of transb) m n k lda ldb ldc
             alpha beta data_type data_type data_type);
   the_memory 0 memory_api_kind offset_a a;
   the_memory 1 memory_api_kind offset_b b;
   the_memory 2 memory_api_kind offset_c c;
   the_primitive].

(** The whole run of a call in which nothing fails. *)
Definition gemm_full_run (memory_api_kind : memory_api_kind_t.t)
    (data_type : data_type_t) (transa transb : ascii) (m n k : Z) (alpha : float)
    (a : N) (offset_a lda : Z) (b : N) (offset_b ldb : Z) (beta : float)
    (c : N) (offset_c ldc : Z) : list event :=
  let resources :=
    gemm_resources memory_api_kind data_type transa transb m n k alpha
      a offset_a lda b offset_b ldb beta c offset_c ldc in
  (created <$> resources)
  ++ [executed; destroyed the_primitive; waited]
  ++ (destroyed <$> reverse (take 6 resources)).




(** Every step before [execute] has succeeded. *)
Definition ready (intel : bool) (kind : memory_api_kind_t.t)
    (data_type : data_type_t) (queue : sycl_queue) (transa transb : ascii)
    (m n k : Z) (alpha : float) (lda ldb : Z) (beta : float) (ldc : Z) : Prop :=
  let op_desc :=
    GemmDesc (transpose_of transa) (transpose_of transb) m n k lda ldb ldc
      alpha beta data_type data_type data_type in
  (intel = true ∨ kind = memory_api_kind_t.buffer)
  ∧ check_gemm_input transa transb m n k lda ldb ldc alpha beta = success
  ∧ is_cpu (get_device queue) = false
  ∧ is_host (get_device queue) = false
  ∧ (NDEBUG cfg = true ∨ is_gpu (get_device queue) = true)
  ∧ engine_create gpu (get_device queue) (get_context queue) = success
  ∧ create_stream queue = success
  ∧ (NDEBUG cfg = true
     ∨ create_gemm_memory_desc op_desc 0 data_type = success
       ∧ create_gemm_memory_desc op_desc 1 data_type = success
       ∧ create_gemm_memory_desc op_desc 2 data_type = success)
  ∧ primitive_desc_create op_desc = success
  ∧ create_primitive op_desc = success.



End GemmGenericBody.

(** A library in which every call succeeds but the ones listed fail. *)
Inductive gemm_call :=
  | call_check | call_engine | call_stream | call_desc (arg : nat)
  | call_pd | call_primitive | call_execute | call_wait.

Global Instance gemm_call_eq_dec : EqDecision gemm_call.
Proof. solve_decision. Defined.

Definition status_of (failing : list gemm_call) (c : gemm_call) : status_t :=
  if bool_decide (c ∈ failing) then runtime_error else success.

Definition library_failing (failing : list gemm_call) : gemm_library := {|
  float := Z;
  check_gemm_input _ _ _ _ _ _ _ _ _ _ := status_of failing call_check;
  engine_create _ _ _ := status_of failing call_engine;
  create_stream _ := status_of failing call_stream;
  create_gemm_memory_desc _ arg _ := status_of failing (call_desc arg);
  primitive_desc_create _ := status_of failing call_pd;
  create_primitive _ := status_of failing call_primitive;
  execute _ := status_of failing call_execute;
  wait _ := status_of failing call_wait
|}.

Definition gpu_queue : sycl_queue := Queue (Device false false true) 1%N.
Definition cpu_queue : sycl_queue := Queue (Device true false false) 1%N.
Definition accelerator_queue : sycl_queue := Queue (Device false false false) 1%N.

End Gemm.

(** * Properties of the kernel *)

Example scenario_runs :
  parallel_for buffer_build sample_kernel sample_stream range_64 scenario_args
  = Normal (success, scenario_stream).
Proof. reflexivity. Qed.

(** ** Scalars *)

Lemma le_to_Z_bound (bs : list Byte.byte) :
  (0 ≤ le_to_Z bs < 256 ^ Z.of_nat (length bs))%Z.
Proof.
  induction bs as [|b bs IH]; simpl length; [simpl; lia|].
  rewrite Nat2Z.inj_succ, Z.pow_succ_r by lia.
  pose proof (Byte.to_N_bounded b) as Hb.
  simpl le_to_Z. lia.
Qed.

Lemma load_uint_bound (bytes : N) (value : list Byte.byte) :
  (0 ≤ load_uint bytes value < 2 ^ (8 * Z.of_N bytes))%Z.
Proof.
  unfold load_uint.
  pose proof (le_to_Z_bound (take (N.to_nat bytes) value)) as [H0 H1].
  split; [done|].
  eapply Z.lt_le_trans; [exact H1|].
  rewrite Z.pow_mul_r by lia. change (2 ^ 8)%Z with 256%Z.
  apply Z.pow_le_mono_r; [lia|].
  rewrite length_take. lia.
Qed.

Lemma le_to_Z_to_le (n : nat) : ∀ (v : Z) (rest : list Byte.byte),
  (0 ≤ v < 256 ^ Z.of_nat n)%Z →
  le_to_Z (take n (Z_to_le n v ++ rest)) = v.
Proof.
  induction n as [|n IH]; intros v rest Hv.
  - simpl in *. assert (v = 0%Z) by lia. by subst.
  - rewrite Nat2Z.inj_succ, Z.pow_succ_r in Hv by lia.
    cbn [Z_to_le app take le_to_Z].
    rewrite IH.
    + assert (Hb : (Z.to_N (v mod 256) < 256)%N).
      { pose proof (Z.mod_pos_bound v 256). lia. }
      destruct (Byte.of_N (Z.to_N (v mod 256))) as [b|] eqn:Hof.
      * apply Byte.to_of_N in Hof. simpl. rewrite Hof.
        rewrite Z2N.id by (pose proof (Z.mod_pos_bound v 256); lia).
        pose proof (Z.div_mod v 256). lia.
      * apply Byte.of_N_None_iff in Hof. lia.
    + split; [apply Z.div_pos; lia|].
      apply Z.div_lt_upper_bound; lia.
Qed.

(** A value that fits the width is read back whole from its bytes. *)
Lemma load_uint_Z_to_le (bytes : N) (v : Z) (rest : list Byte.byte) :
  (0 ≤ v < 2 ^ (8 * Z.of_N bytes))%Z →
  load_uint bytes (Z_to_le (N.to_nat bytes) v ++ rest) = v.
Proof.
  intros Hv. unfold load_uint. apply le_to_Z_to_le.
  rewrite N_nat_Z. rewrite Z.pow_mul_r in Hv by lia. exact Hv.
Qed.

Lemma supported_width_spec (size : N) :
  supported_width size = true ↔ (size = 1 ∨ size = 2 ∨ size = 4 ∨ size = 8)%N.
Proof.
  unfold supported_width.
  rewrite !orb_true_iff, !N.eqb_eq. tauto.
Qed.

Lemma set_scalar_arg_eq cfg `{RT : compute_runtime} cgh index size value :
  set_scalar_arg cfg cgh index size value =
    if supported_width size
    then Normal (cgh ++ [set_arg index (arg_uint size (load_uint size value))])
    else if NDEBUG cfg then Throws (std_runtime_error "Internal error")
         else Aborts "Please add another case".
Proof.
  unfold set_scalar_arg, c_assert.
  destruct size as [|[[[[]|[]|]|[[]|[]|]|]|[[[]|[]|]|[[]|[]|]|]|]];
    try reflexivity; destruct (NDEBUG cfg); reflexivity.
Qed.

(** ** The binder loop *)

Lemma binding_commands_cons `{RT : compute_runtime} {a} i (arg : kernel_arg_t a) rest :
  binding_commands i (arg :: rest) = bound_commands i arg ++ binding_commands (S i) rest.
Proof.
  unfold binding_commands. rewrite imap_cons. simpl concat.
  rewrite Nat.add_0_r. f_equal. f_equal.
  apply imap_ext. intros k x _. simpl. f_equal. lia.
Qed.

Lemma binding_commands_snoc `{RT : compute_runtime} {a} i (args : kernel_arg_list_t a) arg :
  binding_commands i (args ++ [arg])
  = binding_commands i args ++ bound_commands (i + length args) arg.
Proof.
  unfold binding_commands. rewrite imap_app, concat_app. simpl.
  by rewrite Nat.add_0_r, app_nil_r.
Qed.

Lemma bind_arg_binds cfg `{RT : compute_runtime} cgh i arg :
  arg_binds cfg arg = true →
  bind_arg cfg cgh i arg = Normal (cgh ++ bound_commands i arg).
Proof.
  destruct cfg as [a nd]. simpl in *. unfold bound_commands.
  destruct arg as [[s|]|size value]; simpl.
  - unfold usm_assert_fails, bind_storage, c_assert. simpl.
    destruct a; simpl; try done.
    destruct nd; simpl; [|done]. intros _. by rewrite app_nil_r.
  - done.
  - intros Hw. by rewrite set_scalar_arg_eq, Hw.
Qed.

Lemma bind_arg_fails cfg `{RT : compute_runtime} cgh i arg :
  arg_binds cfg arg = false →
  bind_arg cfg cgh i arg = bind_arg cfg [] i arg ∧
  ∀ cgh', bind_arg cfg cgh i arg ≠ Normal cgh'.
Proof.
  destruct cfg as [a nd]. simpl in *.
  destruct arg as [[s|]|size value]; simpl.
  - unfold usm_assert_fails, bind_storage, c_assert. simpl.
    destruct a; simpl; try done. by destruct nd.
  - done.
  - intros Hw. rewrite !set_scalar_arg_eq, Hw. by destruct (NDEBUG _).
Qed.

Lemma bind_args_binds cfg `{RT : compute_runtime} args : ∀ cgh i,
  forallb (arg_binds cfg) args = true →
  bind_args cfg cgh i args = Normal (cgh ++ binding_commands i args).
Proof.
  induction args as [|arg rest IH]; intros cgh i Hok; simpl.
  - by rewrite app_nil_r.
  - simpl in Hok. apply andb_true_iff in Hok as [Harg Hrest].
    rewrite bind_arg_binds by done. simpl.
    rewrite IH by done.
    by rewrite binding_commands_cons, app_assoc.
Qed.

Lemma bind_args_normal cfg `{RT : compute_runtime} args : ∀ cgh i cgh',
  bind_args cfg cgh i args = Normal cgh' →
  forallb (arg_binds cfg) args = true.
Proof.
  induction args as [|arg rest IH]; intros cgh i cgh' Hrun; simpl in *; [done|].
  destruct (arg_binds cfg arg) eqn:Harg; simpl.
  - rewrite bind_arg_binds in Hrun by done. simpl in Hrun. eauto.
  - destruct (bind_arg_fails cfg cgh i arg Harg) as [_ Hno].
    destruct (bind_arg cfg cgh i arg) eqn:Hb; simpl in Hrun; try done.
    by destruct (Hno a).
Qed.

Lemma arg_binds_scalars_supported cfg `{RT : compute_runtime}
    (args : kernel_arg_list_t (MKLDNN_SYCL_MEMORY_API cfg)) :
  usm_assert_fails cfg = false →
  forallb (arg_binds cfg) args = scalars_supported args.
Proof.
  intros Hcfg. unfold scalars_supported.
  induction args as [|[[s|]|size value] rest IH]; simpl; rewrite ?Hcfg, ?IH; done.
Qed.

(** ** Slots and call order of the bindings *)

Lemma kernel_args_snoc `{RT : compute_runtime} (cgh : handler) (c : command) :
  kernel_args (cgh ++ [c]) = apply_command (kernel_args cgh) c.
Proof. unfold kernel_args. by rewrite foldl_app. Qed.

Lemma kernel_args_binding_commands `{RT : compute_runtime} {a}
    (args : kernel_arg_list_t a) (k : nat) :
  kernel_args (binding_commands 0 args) !! k = args !! k ≫= slot_binding.
Proof.
  revert k. induction args as [|arg args IH] using rev_ind; intros k; [done|].
  rewrite binding_commands_snoc. simpl. unfold bound_commands.
  destruct (decide (k = length args)) as [->|Hne].
  - rewrite list_lookup_middle by done. simpl.
    destruct (slot_binding arg) as [v|]; simpl.
    + rewrite kernel_args_snoc. simpl. by rewrite lookup_insert_eq.
    + rewrite app_nil_r, IH. by rewrite lookup_ge_None_2.
  - assert (Hk : (args ++ [arg]) !! k = args !! k).
    { destruct (decide (k < length args)) as [Hlt|Hge].
      - by rewrite lookup_app_l.
      - rewrite !lookup_ge_None_2; [done|lia|rewrite length_app; simpl; lia]. }
    rewrite Hk, <- IH.
    destruct (slot_binding arg) as [v|]; simpl.
    + rewrite kernel_args_snoc. simpl. by rewrite lookup_insert_ne.
    + by rewrite app_nil_r.
Qed.

Lemma kernel_args_dispatch `{RT : compute_runtime} (cgh : handler) range k :
  kernel_args (cgh ++ [dispatch_of range k]) = kernel_args cgh.
Proof.
  rewrite kernel_args_snoc. unfold dispatch_of.
  by destruct (local_range range).
Qed.

Lemma is_set_arg_binding_commands `{RT : compute_runtime} {a}
    (args : kernel_arg_list_t a) : ∀ i,
  Forall (λ c, is_set_arg c = true) (binding_commands i args).
Proof.
  induction args as [|arg rest IH]; intros i; [by constructor|].
  rewrite binding_commands_cons. apply Forall_app. split; [|apply IH].
  unfold bound_commands. destruct (slot_binding arg); by repeat constructor.
Qed.

Lemma set_arg_indices_bounds `{RT : compute_runtime} {a}
    (args : kernel_arg_list_t a) : ∀ i,
  Forall (λ j, i ≤ j < i + length args) (set_arg_indices (binding_commands i args)).
Proof.
  induction args as [|arg rest IH]; intros i; [by constructor|].
  rewrite binding_commands_cons. unfold set_arg_indices. rewrite omap_app.
  apply Forall_app. split.
  - unfold bound_commands. destruct (slot_binding arg); simpl; repeat constructor; lia.
  - eapply Forall_impl; [apply (IH (S i))|]. simpl. intros j. lia.
Qed.

Lemma set_arg_indices_sorted `{RT : compute_runtime} {a}
    (args : kernel_arg_list_t a) : ∀ i,
  StronglySorted lt (set_arg_indices (binding_commands i args)).
Proof.
  induction args as [|arg rest IH]; intros i; [by constructor|].
  rewrite binding_commands_cons. unfold set_arg_indices. rewrite omap_app.
  unfold bound_commands. destruct (slot_binding arg); simpl; [|apply IH].
  constructor; [apply IH|].
  eapply Forall_impl; [apply (set_arg_indices_bounds rest (S i))|].
  simpl. intros j. lia.
Qed.

Lemma slot_binding_is_Some `{RT : compute_runtime} {a} (arg : kernel_arg_t a) :
  a ≠ MKLDNN_SYCL_MEMORY_API_USM → is_Some (slot_binding arg).
Proof.
  intros Ha. destruct arg as [[s|]|size value]; simpl; [|by eexists..].
  destruct a; simpl in *; [by eexists|done|by eexists].
Qed.

Lemma set_arg_indices_seq `{RT : compute_runtime} {a}
    (args : kernel_arg_list_t a) : ∀ i,
  a ≠ MKLDNN_SYCL_MEMORY_API_USM →
  set_arg_indices (binding_commands i args) = seq i (length args).
Proof.
  induction args as [|arg rest IH]; intros i Ha; [done|].
  rewrite binding_commands_cons. unfold set_arg_indices. rewrite omap_app.
  unfold bound_commands.
  destruct (slot_binding_is_Some arg Ha) as [v ->]. simpl.
  f_equal. by apply IH.
Qed.

(** ** [parallel_for] as a whole *)

Lemma parallel_for_eq cfg `{RT : compute_runtime} self stream range args :
  parallel_for cfg self stream range args =
    if usm_assert_fails cfg then Aborts "not implemented"
    else if is_zero range then Normal (success, stream)
    else if kernel_constructible (ocl_kernel_ self) (engine_context (engine stream))
    then obind (bind_args cfg [] 0 args) (λ cgh,
           Normal (success,
                   Stream (engine stream)
                     (queue stream ++
                        [cgh ++ [dispatch_of range
                                   (SyclKernel (ocl_kernel_ self)
                                      (engine_context (engine stream)))]])))
    else Throws sycl_exception.
Proof.
  unfold parallel_for, usm_assert_fails, c_assert, make_sycl_kernel, submit,
    command_group, dispatch_of.
  destruct cfg as [[] []]; simpl; try done;
    (destruct (is_zero range); [done|]);
    (destruct (kernel_constructible _ _); [|done]); simpl;
    (destruct (bind_args _ _ _ _); simpl; [|done..]);
    by destruct (local_range range).
Qed.

(** When the call goes through, and what it leaves in the queue. *)
Lemma parallel_for_submits cfg `{RT : compute_runtime} self stream range args :
  usm_assert_fails cfg = false →
  is_zero range = false →
  kernel_constructible (ocl_kernel_ self) (engine_context (engine stream)) = true →
  scalars_supported args = true →
  parallel_for cfg self stream range args =
    Normal (success,
            Stream (engine stream)
              (queue stream ++
                 [binding_commands 0 args ++
                  [dispatch_of range
                     (SyclKernel (ocl_kernel_ self) (engine_context (engine stream)))]])).
Proof.
  intros Hcfg Hz Hk Hargs.
  rewrite parallel_for_eq, Hcfg, Hz, Hk.
  rewrite bind_args_binds by (by rewrite arg_binds_scalars_supported).
  done.
Qed.

Lemma parallel_for_normal cfg `{RT : compute_runtime} self stream range args st stream' :
  parallel_for cfg self stream range args = Normal (st, stream') →
  st = success ∧ usm_assert_fails cfg = false ∧
  (is_zero range = true ∧ stream' = stream
   ∨ is_zero range = false
     ∧ kernel_constructible (ocl_kernel_ self) (engine_context (engine stream)) = true
     ∧ scalars_supported args = true
     ∧ stream' =
         Stream (engine stream)
           (queue stream ++
              [binding_commands 0 args ++
               [dispatch_of range
                  (SyclKernel (ocl_kernel_ self) (engine_context (engine stream)))]])).
Proof.
  rewrite parallel_for_eq.
  destruct (usm_assert_fails cfg) eqn:Hcfg; [done|].
  destruct (is_zero range) eqn:Hz.
  { intros [= <- <-]. auto. }
  destruct (kernel_constructible _ _) eqn:Hk; [|done].
  destruct (bind_args cfg [] 0 args) as [cgh| |] eqn:Hb; simpl; [|done..].
  intros [= <- <-].
  pose proof (bind_args_normal _ _ _ _ _ Hb) as Hok.
  rewrite bind_args_binds in Hb by done. injection Hb as <-.
  rewrite arg_binds_scalars_supported in Hok by done.
  split; [done|]. split; [done|]. right. done.
Qed.

(** With [NDEBUG] no assertion can stop the call. *)
Lemma bind_arg_ndebug cfg `{RT : compute_runtime} cgh i arg expr :
  NDEBUG cfg = true → bind_arg cfg cgh i arg ≠ Aborts expr.
Proof.
  destruct cfg as [a nd]. simpl. intros ->.
  destruct arg as [[s|]|size value]; simpl; [|done|].
  - unfold bind_storage, c_assert. by destruct a.
  - rewrite set_scalar_arg_eq. simpl. by destruct (supported_width size).
Qed.

Lemma bind_args_ndebug cfg `{RT : compute_runtime} args expr : ∀ cgh i,
  NDEBUG cfg = true → bind_args cfg cgh i args ≠ Aborts expr.
Proof.
  induction args as [|arg rest IH]; intros cgh i Hnd; simpl; [done|].
  pose proof (bind_arg_ndebug cfg cgh i arg expr Hnd) as Harg.
  destruct (bind_arg cfg cgh i arg) as [cgh'| |]; simpl; [by apply IH|done|done].
Qed.

Lemma parallel_for_ndebug cfg `{RT : compute_runtime} self stream range args expr :
  NDEBUG cfg = true → parallel_for cfg self stream range args ≠ Aborts expr.
Proof.
  intros Hnd. rewrite parallel_for_eq.
  assert (usm_assert_fails cfg = false) as ->.
  { unfold usm_assert_fails. rewrite Hnd. by destruct (MKLDNN_SYCL_MEMORY_API cfg). }
  destruct (is_zero range); [done|].
  destruct (kernel_constructible _ _); [|done].
  pose proof (bind_args_ndebug cfg args expr [] 0 Hnd) as Hargs.
  destruct (bind_args cfg [] 0 args); simpl; [done|done|].
  intros [= ->]. by apply Hargs.
Qed.

(** ** Scalar binding *)

(** C2: a scalar argument whose byte width is 1, 2, 4 or 8 is bound at its
    slot as the unsigned integer of that width read from its raw bytes (the
    value lies below [2 ^ (8 * width)], and a value that fits the width is
    read back whole); for any other width nothing is bound and the binder
    does not return: it stops in the failed assertion when assertions are
    enabled and throws [std::runtime_error] otherwise. *)
Theorem set_scalar_arg_by_width cfg `{RT : compute_runtime} cgh index size value :
  set_scalar_arg cfg cgh index size value =
    (if supported_width size
     then Normal (cgh ++ [set_arg index (arg_uint size (load_uint size value))])
     else if NDEBUG cfg then Throws (std_runtime_error "Internal error")
          else Aborts "Please add another case")
  ∧ (supported_width size = true ↔ (size = 1 ∨ size = 2 ∨ size = 4 ∨ size = 8)%N)
  ∧ (0 ≤ load_uint size value < 2 ^ (8 * Z.of_N size))%Z
  ∧ (∀ v rest, (0 ≤ v < 2 ^ (8 * Z.of_N size))%Z →
       load_uint size (Z_to_le (N.to_nat size) v ++ rest) = v).
Proof.
  split; [apply set_scalar_arg_eq|].
  split; [apply supported_width_spec|].
  split; [apply load_uint_bound|].
  intros v rest. apply load_uint_Z_to_le.
Qed.

Example set_scalar_arg_int32 :
  set_scalar_arg buffer_build [] 0 4 int32_7 = Normal [set_arg 0 (arg_uint 4 7)].
Proof. reflexivity. Qed.

Example set_scalar_arg_width_3 :
  set_scalar_arg buffer_build [] 0 3 int32_7 = Aborts "Please add another case"
  ∧ set_scalar_arg buffer_release_build [] 0 3 int32_7
    = Throws (std_runtime_error "Internal error").
Proof. split; reflexivity. Qed.

(** ** Status of [parallel_for] *)

(** C10: whenever [parallel_for] returns a status, the status is success;
    every other outcome is an exception or a failed assertion. *)
Theorem parallel_for_returns_only_success cfg `{RT : compute_runtime}
    self stream range args st stream' :
  parallel_for cfg self stream range args = Normal (st, stream') →
  st = success.
Proof. intros Hrun. by apply parallel_for_normal in Hrun as [-> _]. Qed.

Lemma parallel_for_returns_only_success_witness :
  parallel_for buffer_build sample_kernel sample_stream range_64 scenario_args
  = Normal (success, scenario_stream)
  ∧ success = success.
Proof.
  split; [reflexivity|].
  exact (parallel_for_returns_only_success buffer_build sample_kernel
           sample_stream range_64 scenario_args success scenario_stream eq_refl).
Defined.

(** ** Zero range *)

(** C4, as stated, fails in a USM build with assertions enabled: the
    assertion at the entry of [parallel_for] comes before the zero-range
    test, so the call stops instead of returning success. *)
Lemma parallel_for_zero_range_usm_assert :
  is_zero range_zero = true
  ∧ parallel_for usm_build sample_kernel sample_stream range_zero []
    = Aborts "not implemented"
  ∧ parallel_for usm_build sample_kernel sample_stream range_zero []
    ≠ Normal (success, sample_stream).
Proof. split; [reflexivity|]. split; [reflexivity|discriminate]. Qed.

(** C4 (amended): in every build other than a USM build with assertions
    enabled, a call with a zero range returns success with the stream, and
    so its queue, exactly as it was: no kernel object, no binding, no
    submission. *)
Theorem parallel_for_zero_range cfg `{RT : compute_runtime} self stream range args :
  usm_assert_fails cfg = false →
  is_zero range = true →
  parallel_for cfg self stream range args = Normal (success, stream).
Proof. intros Hcfg Hz. by rewrite parallel_for_eq, Hcfg, Hz. Qed.

Lemma parallel_for_zero_range_witness :
  usm_assert_fails buffer_build = false
  ∧ is_zero range_zero = true
  ∧ parallel_for buffer_build sample_kernel sample_stream range_zero scenario_args
    = Normal (success, sample_stream).
Proof.
  split; [reflexivity|]. split; [reflexivity|].
  apply (parallel_for_zero_range buffer_build); reflexivity.
Defined.

(** With a zero range neither the kernel handle nor the arguments are
    looked at: a null handle and a scalar of width 3 go unnoticed. *)
Example parallel_for_zero_range_skips_everything :
  parallel_for buffer_release_build (Kernel 0%N) scenario_stream range_zero
    [scalar_arg (api := MKLDNN_SYCL_MEMORY_API_BUFFER) 3%N int32_7]
  = Normal (success, scenario_stream)
  ∧ parallel_for usm_release_build (Kernel 0%N) scenario_stream range_zero []
    = Normal (success, scenario_stream).
Proof. split; reflexivity. Qed.

(** ** Unsupported memory API *)

(** C5, as stated, fails in a USM build without assertions: [assert]
    expands to nothing, the call returns success, and a non-null global
    argument is left unbound in the group that is submitted. *)
Lemma parallel_for_usm_release_returns :
  parallel_for usm_release_build sample_kernel sample_stream range_zero []
  = Normal (success, sample_stream)
  ∧ parallel_for usm_release_build sample_kernel sample_stream range_64
      [global_arg (api := MKLDNN_SYCL_MEMORY_API_USM) (Some 4096%N)]
    = Normal (success,
        Stream (Engine 1%N) [[cgh_parallel_for [64; 1; 1]%N (SyclKernel 42%N 1%N)]])
  ∧ ∀ expr,
      parallel_for usm_release_build sample_kernel sample_stream range_64
        [global_arg (api := MKLDNN_SYCL_MEMORY_API_USM) (Some 4096%N)]
      ≠ Aborts expr.
Proof. split; [reflexivity|]. split; [reflexivity|]. intros expr. discriminate. Qed.

(** C5 (amended): in a USM build with assertions enabled every call of
    [parallel_for] stops in the failed assertion "not implemented", whatever
    the stream, range and arguments, before anything else is done; with
    assertions compiled out no call stops in an assertion, so the
    configuration is not reported. *)
Theorem parallel_for_usm_asserts cfg `{RT : compute_runtime} self stream range args :
  MKLDNN_SYCL_MEMORY_API cfg = MKLDNN_SYCL_MEMORY_API_USM →
  if NDEBUG cfg
  then ∀ expr, parallel_for cfg self stream range args ≠ Aborts expr
  else parallel_for cfg self stream range args = Aborts "not implemented".
Proof.
  intros Hapi. destruct (NDEBUG cfg) eqn:Hnd.
  - intros expr. by apply parallel_for_ndebug.
  - rewrite parallel_for_eq. unfold usm_assert_fails. by rewrite Hapi, Hnd.
Qed.

Lemma parallel_for_usm_asserts_witness :
  MKLDNN_SYCL_MEMORY_API usm_build = MKLDNN_SYCL_MEMORY_API_USM
  ∧ parallel_for usm_build sample_kernel sample_stream range_64
      [global_arg (api := MKLDNN_SYCL_MEMORY_API_USM) (Some 4096%N)]
    = Aborts "not implemented".
Proof.
  split; [reflexivity|].
  exact (parallel_for_usm_asserts usm_build sample_kernel sample_stream range_64
           [global_arg (api := MKLDNN_SYCL_MEMORY_API_USM) (Some 4096%N)] eq_refl).
Defined.

(** ** Shape and order of the submission *)

(** C6: when [parallel_for] is called with a non-zero range and makes its
    submission, the command group it enqueues ends in exactly one dispatch,
    and that dispatch is the grouped (global, local) form when the range
    has a local extent and the flat global-only form when it has none. *)
Theorem parallel_for_submission_shape cfg `{RT : compute_runtime}
    self stream range args st stream' :
  is_zero range = false →
  parallel_for cfg self stream range args = Normal (st, stream') →
  ∃ bindings dispatch,
    queue stream' = queue stream ++ [bindings ++ [dispatch]]
    ∧ Forall (λ c, is_set_arg c = true) bindings
    ∧ dispatch =
        match local_range range with
        | Some _ =>
            cgh_parallel_for_nd (to_sycl_nd_range range)
              (SyclKernel (ocl_kernel_ self) (engine_context (engine stream)))
        | None =>
            cgh_parallel_for (to_sycl_range range)
              (SyclKernel (ocl_kernel_ self) (engine_context (engine stream)))
        end.
Proof.
  intros Hz Hrun.
  apply parallel_for_normal in Hrun as (_ & _ & [[Hz' _]|(_ & _ & _ & ->)]);
    [congruence|].
  eexists _, _. split; [reflexivity|].
  split; [apply is_set_arg_binding_commands|done].
Qed.

Lemma parallel_for_submission_shape_witness :
  (is_zero range_64_local_8 = false
   ∧ parallel_for buffer_build sample_kernel sample_stream range_64_local_8 scenario_args
     = Normal (success, scenario_stream_local)
   ∧ ∃ bindings dispatch,
       queue scenario_stream_local = queue sample_stream ++ [bindings ++ [dispatch]]
       ∧ Forall (λ c, is_set_arg c = true) bindings
       ∧ dispatch = cgh_parallel_for_nd ([64; 1; 1]%N, [8; 1; 1]%N) (SyclKernel 42%N 1%N))
  ∧ (is_zero range_64 = false
     ∧ parallel_for buffer_build sample_kernel sample_stream range_64 scenario_args
       = Normal (success, scenario_stream)
     ∧ ∃ bindings dispatch,
         queue scenario_stream = queue sample_stream ++ [bindings ++ [dispatch]]
         ∧ Forall (λ c, is_set_arg c = true) bindings
         ∧ dispatch = cgh_parallel_for [64; 1; 1]%N (SyclKernel 42%N 1%N)).
Proof.
  split; (split; [reflexivity|]); (split; [reflexivity|]).
  - exact (parallel_for_submission_shape buffer_build sample_kernel sample_stream
             range_64_local_8 scenario_args success scenario_stream_local
             eq_refl eq_refl).
  - exact (parallel_for_submission_shape buffer_build sample_kernel sample_stream
             range_64 scenario_args success scenario_stream eq_refl eq_refl).
Defined.

(** C7: when [parallel_for] is called with a non-zero range and a list of
    [N] arguments and makes its submission, the single command group it
    enqueues is a run of [set_arg] calls followed by one dispatch: every
    binding comes before the dispatch, the slots of the bindings are
    strictly increasing and below [N], and in a buffer or virtual-pointer
    build they are exactly [0, 1, ..., N-1]. *)
Theorem parallel_for_binds_in_index_order cfg `{RT : compute_runtime}
    self stream range args st stream' :
  is_zero range = false →
  parallel_for cfg self stream range args = Normal (st, stream') →
  ∃ bindings dispatch,
    queue stream' = queue stream ++ [bindings ++ [dispatch]]
    ∧ Forall (λ c, is_set_arg c = true) bindings
    ∧ is_dispatch dispatch = true
    ∧ StronglySorted lt (set_arg_indices bindings)
    ∧ Forall (λ j, j < length args) (set_arg_indices bindings)
    ∧ (MKLDNN_SYCL_MEMORY_API cfg ≠ MKLDNN_SYCL_MEMORY_API_USM →
       set_arg_indices bindings = seq 0 (length args)).
Proof.
  intros Hz Hrun.
  apply parallel_for_normal in Hrun as (_ & _ & [[Hz' _]|(_ & _ & _ & ->)]);
    [congruence|].
  eexists _, _. split; [reflexivity|].
  split; [apply is_set_arg_binding_commands|].
  split; [unfold dispatch_of; by destruct (local_range range)|].
  split; [apply set_arg_indices_sorted|].
  split.
  - eapply Forall_impl; [apply (set_arg_indices_bounds args 0)|].
    simpl. intros j. lia.
  - intros Hapi. by apply set_arg_indices_seq.
Qed.

Lemma parallel_for_binds_in_index_order_witness :
  is_zero range_64 = false
  ∧ parallel_for buffer_build sample_kernel sample_stream range_64 scenario_args
    = Normal (success, scenario_stream)
  ∧ ∃ bindings dispatch,
      queue scenario_stream = queue sample_stream ++ [bindings ++ [dispatch]]
      ∧ Forall (λ c, is_set_arg c = true) bindings
      ∧ is_dispatch dispatch = true
      ∧ StronglySorted lt (set_arg_indices bindings)
      ∧ Forall (λ j, j < 3) (set_arg_indices bindings)
      ∧ (MKLDNN_SYCL_MEMORY_API_BUFFER ≠ MKLDNN_SYCL_MEMORY_API_USM →
         set_arg_indices bindings = [0; 1; 2]).
Proof.
  split; [reflexivity|]. split; [reflexivity|].
  exact (parallel_for_binds_in_index_order buffer_build sample_kernel sample_stream
           range_64 scenario_args success scenario_stream eq_refl eq_refl).
Defined.

(** ** Global arguments *)

(** C1, as stated, fails on three kinds of calls.  In a USM build without
    assertions the call goes through and the group is submitted, but the
    slot of a global argument with non-null storage is left unbound.  With
    a zero range the call returns before any binding, and a global
    argument with null storage is bound nowhere.  Behind a scalar of
    unsupported width the loop is left by the exception, and the null
    storage that follows is never reached. *)
Lemma parallel_for_leaves_global_args_unbound :
  (parallel_for usm_release_build sample_kernel sample_stream range_64
     [global_arg (api := MKLDNN_SYCL_MEMORY_API_USM) (Some 4096%N)]
   = Normal (success,
       Stream (Engine 1%N) [[cgh_parallel_for [64; 1; 1]%N (SyclKernel 42%N 1%N)]])
   ∧ kernel_args [cgh_parallel_for [64; 1; 1]%N (SyclKernel 42%N 1%N)] !! 0 = None)
  ∧ (is_zero range_zero = true
     ∧ parallel_for buffer_build sample_kernel sample_stream range_zero
         [global_arg (api := MKLDNN_SYCL_MEMORY_API_BUFFER) None]
       = Normal (success, sample_stream)
     ∧ queue sample_stream = [])
  ∧ parallel_for buffer_release_build sample_kernel sample_stream range_64
      [scalar_arg 3%N int32_7; global_arg (api := MKLDNN_SYCL_MEMORY_API_BUFFER) None]
    = Throws (std_runtime_error "Internal error").
Proof. repeat split. Qed.

(** C1 (amended): in a buffer or virtual-pointer build, when [parallel_for]
    is called with a non-zero range and makes its submission, the command
    group it enqueues binds each global argument with non-null storage, at
    the argument's position, as a read-write accessor on the buffer that
    the storage's native handle resolves to, and each global argument with
    null storage, at its position, as a null reference. *)
Theorem parallel_for_binds_global_args cfg `{RT : compute_runtime}
    self stream range args st stream' :
  MKLDNN_SYCL_MEMORY_API cfg ≠ MKLDNN_SYCL_MEMORY_API_USM →
  is_zero range = false →
  parallel_for cfg self stream range args = Normal (st, stream') →
  ∃ group,
    queue stream' = queue stream ++ [group]
    ∧ ∀ i,
        (∀ s, args !! i = Some (global_arg (Some s)) →
           ∃ buf, storage_buffer _ s = Some buf
                  ∧ kernel_args group !! i = Some (arg_accessor read_write buf))
        ∧ (args !! i = Some (global_arg None) →
           kernel_args group !! i = Some arg_nullptr).
Proof.
  intros Hapi Hz Hrun.
  apply parallel_for_normal in Hrun as (_ & _ & [[Hz' _]|(_ & _ & _ & ->)]);
    [congruence|].
  eexists. split; [reflexivity|].
  intros i. rewrite kernel_args_dispatch, kernel_args_binding_commands.
  split.
  - intros s ->. simpl.
    destruct (slot_binding_is_Some (global_arg (Some s)) Hapi) as [v Hv].
    simpl in Hv. destruct (storage_buffer _ s) as [buf|]; [|done]. eauto.
  - by intros ->.
Qed.

Lemma parallel_for_binds_global_args_witness :
  MKLDNN_SYCL_MEMORY_API buffer_build ≠ MKLDNN_SYCL_MEMORY_API_USM
  ∧ is_zero range_64 = false
  ∧ parallel_for buffer_build sample_kernel sample_stream range_64 scenario_args
    = Normal (success, scenario_stream)
  ∧ ∃ group,
      queue scenario_stream = queue sample_stream ++ [group]
      ∧ ∀ i,
          (∀ s, scenario_args !! i = Some (global_arg (Some s)) →
             ∃ buf, storage_buffer MKLDNN_SYCL_MEMORY_API_BUFFER s = Some buf
                    ∧ kernel_args group !! i = Some (arg_accessor read_write buf))
          ∧ (scenario_args !! i = Some (global_arg None) →
             kernel_args group !! i = Some arg_nullptr).
Proof.
  assert (Hapi : MKLDNN_SYCL_MEMORY_API buffer_build ≠ MKLDNN_SYCL_MEMORY_API_USM)
    by discriminate.
  split; [exact Hapi|]. split; [reflexivity|]. split; [reflexivity|].
  exact (parallel_for_binds_global_args buffer_build sample_kernel sample_stream
           range_64 scenario_args success scenario_stream Hapi eq_refl eq_refl).
Defined.

(** With virtual pointers the accessor is taken on the buffer that
    [get_sycl_buffer] finds for the pointer. *)
Example parallel_for_vptr_runs :
  parallel_for vptr_build sample_kernel sample_stream range_64_local_8
    [global_arg (api := MKLDNN_SYCL_MEMORY_API_VPTR) (Some 5%N); global_arg None]
  = Normal (success,
      Stream (Engine 1%N)
        [[set_arg 0 (arg_accessor read_write (Buffer 5%N 0%N 1%N));
          set_arg 1 arg_nullptr;
          cgh_parallel_for_nd ([64; 1; 1]%N, [8; 1; 1]%N) (SyclKernel 42%N 1%N)]]).
Proof. reflexivity. Qed.

(** A kernel that cannot be constructed makes the call throw. *)
Example parallel_for_null_kernel_throws :
  parallel_for buffer_build (Kernel 0%N) sample_stream range_64 scenario_args
  = Throws sycl_exception.
Proof. reflexivity. Qed.

(** The scenario, slot by slot. *)
Example scenario_slots :
  kernel_args (binding_commands 0 scenario_args) !! 0 = Some (arg_uint 4%N 7%Z)
  ∧ kernel_args (binding_commands 0 scenario_args) !! 1
    = Some (arg_accessor read_write storageA)
  ∧ kernel_args (binding_commands 0 scenario_args) !! 2 = Some arg_nullptr
  ∧ kernel_args (binding_commands 0 scenario_args) !! 3 = None.
Proof. rewrite !kernel_args_binding_commands. by repeat split. Qed.

(** ** Kernel lifetime *)

(** C8: destroying the wrapper releases the native kernel it holds exactly
    once when the handle is not null, and makes no call at all when the
    handle is null; one destruction never makes a second release. *)
Theorem kernel_dtor_releases_once (self : sycl_ocl_gpu_kernel_t) (ocl : list ocl_call) :
  ∃ calls,
    sycl_ocl_gpu_kernel_t_dtor self ocl = ocl ++ calls
    ∧ length calls ≤ 1
    ∧ (ocl_kernel_ self ≠ 0%N → calls = [clReleaseKernel (ocl_kernel_ self)])
    ∧ (ocl_kernel_ self = 0%N → calls = []).
Proof.
  unfold sycl_ocl_gpu_kernel_t_dtor.
  destruct (N.eqb_spec (ocl_kernel_ self) 0) as [Hnull|Hlive].
  - exists []. rewrite app_nil_r. split; [done|]. split; [simpl; lia|]. by split.
  - exists [clReleaseKernel (ocl_kernel_ self)].
    split; [done|]. split; [simpl; lia|]. by split.
Qed.

Example kernel_dtor_runs :
  sycl_ocl_gpu_kernel_t_dtor sample_kernel [] = [clReleaseKernel 42%N]
  ∧ sycl_ocl_gpu_kernel_t_dtor (Kernel 0%N) [] = [].
Proof. split; reflexivity. Qed.

(** * Properties of the memory storage *)

Module StorageFacts.
Import Storage.

Lemma new_address_fresh (m : memory) :
  new_address m ≠ 0%N ∧ objects m !! new_address m = None.
Proof.
  unfold new_address.
  pose proof (is_fresh ({[0%N]} ∪ dom (objects m))) as Hfresh.
  split.
  - intros Heq. apply Hfresh. rewrite Heq. set_solver.
  - apply not_elem_of_dom. set_solver.
Qed.

Lemma shared_ptr_release_other (p q : N) (m : memory) :
  q ≠ p →
  objects (shared_ptr_release p m) !! q = objects m !! q
  ∧ use_count (shared_ptr_release p m) !! q = use_count m !! q.
Proof.
  intros Hne. unfold shared_ptr_release.
  destruct (p =? 0)%N; [done|].
  destruct (use_count m !! p) as [[|[|n]]|]; simpl;
    rewrite ?lookup_delete_ne, ?lookup_insert_ne by done; done.
Qed.

Lemma set_data_handle_spec self handle m buf :
  objects m !! handle = Some buf →
  storage_ok self m →
  ∃ self' m',
    set_data_handle self handle m = Some (success, self', m')
    ∧ buffer_ self' = new_address m
    ∧ offset_ self' = offset_ self
    ∧ objects m' !! buffer_ self' = Some buf
    ∧ use_count m' !! buffer_ self' = Some 1
    ∧ (∀ q, q ≠ buffer_ self → q ≠ buffer_ self' → objects m' !! q = objects m !! q).
Proof.
  intros Hh Hok. unfold set_data_handle. rewrite Hh. simpl.
  destruct (new_address_fresh m) as [Hnz Hnew].
  assert (Hold : new_address m ≠ buffer_ self).
  { destruct Hok as [H0|[b Hb]]; congruence. }
  eexists _, _. split; [reflexivity|]. simpl.
  split; [done|]. split; [done|].
  split; [|split].
  - destruct (shared_ptr_release_other (buffer_ self) (new_address m)
      (Memory (<[new_address m := buf]> (objects m)) (<[new_address m := 1]> (use_count m)))
      Hold) as [-> _].
    simpl. by rewrite lookup_insert_eq.
  - destruct (shared_ptr_release_other (buffer_ self) (new_address m)
      (Memory (<[new_address m := buf]> (objects m)) (<[new_address m := 1]> (use_count m)))
      Hold) as [_ ->].
    simpl. by rewrite lookup_insert_eq.
  - intros q Hq1 Hq2.
    destruct (shared_ptr_release_other (buffer_ self) q
      (Memory (<[new_address m := buf]> (objects m)) (<[new_address m := 1]> (use_count m)))
      Hq1) as [-> _].
    simpl. by rewrite lookup_insert_ne.
Qed.

(** C9: for a buffer-backed storage, [set_data_handle(h)] with [h] a live
    buffer succeeds, and [get_data_handle()] then succeeds with a handle to a
    buffer object equal to the one at [h], hence on the same allocation.
    That object is a new one, at an address that was not in use and differs
    from [h], with the storage as its single owner, and the object at [h]
    stays alive beside it unless it was the storage's previous buffer: a
    second reference to the allocation, not a copy of its data.  For the
    pointer-backed storage the handle read back is [h] itself. *)
Theorem set_then_get_data_handle self handle m buf u :
  objects m !! handle = Some buf →
  storage_ok self m →
  (∃ self' m',
     set_data_handle self handle m = Some (success, self', m')
     ∧ get_data_handle self' = (success, buffer_ self')
     ∧ objects m' !! buffer_ self' = Some buf
     ∧ mem_object <$> (objects m' !! buffer_ self') = mem_object <$> (objects m !! handle)
     ∧ buffer_ self' ≠ handle
     ∧ buffer_ self' ≠ 0%N
     ∧ objects m !! buffer_ self' = None
     ∧ use_count m' !! buffer_ self' = Some 1
     ∧ (handle ≠ buffer_ self → objects m' !! handle = Some buf))
  ∧ (usm_set_data_handle u handle).1 = success
  ∧ usm_get_data_handle (usm_set_data_handle u handle).2 = (success, handle).
Proof.
  intros Hh Hok. split; [|done].
  destruct (set_data_handle_spec self handle m buf Hh Hok)
    as (self' & m' & Hset & Hnew & _ & Hobj & Hcount & Hframe).
  destruct (new_address_fresh m) as [Hnz Hfresh].
  assert (Hne : buffer_ self' ≠ handle) by congruence.
  exists self', m'.
  split; [done|]. split; [done|]. split; [done|].
  split; [by rewrite Hobj, Hh|].
  split; [done|]. split; [congruence|]. split; [congruence|]. split; [done|].
  intros Hold. rewrite Hframe by done. done.
Qed.

Lemma set_then_get_data_handle_witness :
  objects sample_memory !! 16%N = Some (Buffer 7%N 64%N 4%N)
  ∧ storage_ok empty_storage sample_memory
  ∧ (∃ self' m',
       set_data_handle empty_storage 16%N sample_memory = Some (success, self', m')
       ∧ get_data_handle self' = (success, buffer_ self')
       ∧ objects m' !! buffer_ self' = Some (Buffer 7%N 64%N 4%N)
       ∧ mem_object <$> (objects m' !! buffer_ self')
         = mem_object <$> (objects sample_memory !! 16%N)
       ∧ buffer_ self' ≠ 16%N
       ∧ buffer_ self' ≠ 0%N
       ∧ objects sample_memory !! buffer_ self' = None
       ∧ use_count m' !! buffer_ self' = Some 1
       ∧ (16%N ≠ buffer_ empty_storage → objects m' !! 16%N = Some (Buffer 7%N 64%N 4%N)))
    ∧ (usm_set_data_handle (UsmStorage 0%N 0%Z) 16%N).1 = success
    ∧ usm_get_data_handle (usm_set_data_handle (UsmStorage 0%N 0%Z) 16%N).2
      = (success, 16%N).
Proof.
  assert (Hh : objects sample_memory !! 16%N = Some (Buffer 7%N 64%N 4%N))
    by (vm_compute; reflexivity).
  assert (Hok : storage_ok empty_storage sample_memory) by (left; reflexivity).
  split; [exact Hh|]. split; [exact Hok|].
  exact (set_then_get_data_handle empty_storage 16%N sample_memory
           (Buffer 7%N 64%N 4%N) (UsmStorage 0%N 0%Z) Hh Hok).
Defined.

Example set_data_handle_runs :
  ∃ m',
    set_data_handle empty_storage 16%N sample_memory
    = Some (success, BufferStorage 17%N 0%Z, m')
    ∧ objects m' !! 17%N = Some (Buffer 7%N 64%N 4%N)
    ∧ objects m' !! 16%N = Some (Buffer 7%N 64%N 4%N).
Proof. eexists. split; [reflexivity|]. split; vm_compute; reflexivity. Qed.

(** ** Offsets *)

Lemma create_memory_buffer_call_spec sizeof_T mem offset handle m buf :
  objects m !! handle = Some buf →
  storage_ok mem m →
  ∃ mem' m',
    create_memory_buffer_call sizeof_T mem offset handle m = Some (mem', m')
    ∧ Storage.offset mem' = ((offset * sizeof_T) mod 2 ^ 64)%Z
    ∧ objects m' !! buffer_ mem' = Some (reinterpret_u8 buf (get_size buf))
    ∧ (handle ≠ buffer_ mem → objects m' !! handle = Some buf).
Proof.
  intros Hh Hok. unfold create_memory_buffer_call. rewrite Hh. simpl.
  destruct (new_address_fresh m) as [Hnz Hfresh].
  set (local := new_address m) in *.
  set (m1 := Memory (<[local := reinterpret_u8 buf (get_size buf)]> (objects m))
               (use_count m)).
  assert (Hlocal : objects m1 !! local = Some (reinterpret_u8 buf (get_size buf)))
    by (simpl; by rewrite lookup_insert_eq).
  assert (Hok1 : storage_ok mem m1).
  { destruct Hok as [H0|[b Hb]]; [by left|right]. simpl.
    rewrite lookup_insert_ne by congruence. eauto. }
  destruct (set_data_handle_spec mem local m1 _ Hlocal Hok1)
    as (mem' & m2 & -> & Hnew & _ & Hobj & _ & Hframe).
  simpl. eexists _, _. split; [reflexivity|]. simpl.
  destruct (new_address_fresh m1) as [_ Hfresh1].
  assert (Hne : buffer_ mem' ≠ local).
  { intros Heq. rewrite <- Hnew, Heq, Hlocal in Hfresh1. done. }
  split; [done|]. split.
  - by rewrite lookup_delete_ne.
  - intros Hold.
    assert (handle ≠ local) by congruence.
    assert (handle ≠ buffer_ mem').
    { intros Heq. rewrite <- Hnew, <- Heq in Hfresh1. simpl in Hfresh1.
      rewrite lookup_insert_ne in Hfresh1 by done. congruence. }
    rewrite lookup_delete_ne by done. rewrite Hframe by done.
    simpl. by rewrite lookup_insert_ne.
Qed.

(** C3, as stated, fails for buffer-backed storage: built over a byte
    buffer with offset 64, or 4096, the storage keeps that offset in
    [offset()] while [base_offset()] is 0. *)
Lemma buffer_base_offset_ignores_offset :
  (∃ mem m',
     create_memory_buffer_call 1 empty_storage 64 16%N sample_memory = Some (mem, m')
     ∧ Storage.offset mem = 64%Z
     ∧ base_offset mem = 0%Z
     ∧ base_offset mem ≠ 64%Z)
  ∧ (∃ mem m',
       create_memory_buffer_call 1 empty_storage 4096 16%N sample_memory = Some (mem, m')
       ∧ Storage.offset mem = 4096%Z
       ∧ base_offset mem = 0%Z
       ∧ base_offset mem ≠ 4096%Z).
Proof.
  split; eexists _, _; (split; [reflexivity|]); repeat split; done.
Qed.

(** C3 (amended): [base_offset()] returns 0 for every pointer-backed
    storage and for every buffer-backed storage, whatever offset the
    storage was built with; the byte offset given to [create_memory_t]
    (the element offset times the element size, as a [size_t]) is what
    [offset()] returns, and [base_offset()] does not depend on it. *)
Theorem base_offset_is_zero sizeof_T mem offset handle m buf
    (self : sycl_buffer_memory_storage_t) (u : sycl_usm_memory_storage_t) :
  objects m !! handle = Some buf →
  storage_ok mem m →
  usm_base_offset u = 0%Z
  ∧ usm_base_offset (create_memory_usm_call sizeof_T offset handle) = 0%Z
  ∧ base_offset self = 0%Z
  ∧ ∃ mem' m',
      create_memory_buffer_call sizeof_T mem offset handle m = Some (mem', m')
      ∧ base_offset mem' = 0%Z
      ∧ Storage.offset mem' = ((offset * sizeof_T) mod 2 ^ 64)%Z.
Proof.
  intros Hh Hok.
  destruct (create_memory_buffer_call_spec sizeof_T mem offset handle m buf Hh Hok)
    as (mem' & m' & Hcall & Hoff & _).
  repeat split; try done. by exists mem', m'.
Qed.

Lemma base_offset_is_zero_witness :
  objects sample_memory !! 16%N = Some (Buffer 7%N 64%N 4%N)
  ∧ storage_ok empty_storage sample_memory
  ∧ usm_base_offset (UsmStorage 4096%N 64%Z) = 0%Z
  ∧ usm_base_offset (create_memory_usm_call 4 16 4096%N) = 0%Z
  ∧ base_offset (BufferStorage 17%N 64%Z) = 0%Z
  ∧ ∃ mem' m',
      create_memory_buffer_call 4 empty_storage 16 16%N sample_memory = Some (mem', m')
      ∧ base_offset mem' = 0%Z
      ∧ Storage.offset mem' = ((16 * 4) mod 2 ^ 64)%Z.
Proof.
  assert (Hh : objects sample_memory !! 16%N = Some (Buffer 7%N 64%N 4%N))
    by (vm_compute; reflexivity).
  assert (Hok : storage_ok empty_storage sample_memory) by (left; reflexivity).
  split; [exact Hh|]. split; [exact Hok|].
  exact (base_offset_is_zero 4 empty_storage 16 16%N sample_memory
           (Buffer 7%N 64%N 4%N) (BufferStorage 17%N 64%Z) (UsmStorage 4096%N 64%Z)
           Hh Hok).
Defined.

(** The storage built by [create_memory_t] refers to the caller's
    allocation through an object of its own. *)
Example create_memory_buffer_call_runs :
  ∃ m',
    create_memory_buffer_call 4 empty_storage 16 16%N sample_memory
    = Some (BufferStorage 18%N 64%Z, m')
    ∧ objects m' !! 18%N = Some (Buffer 7%N 256%N 1%N)
    ∧ objects m' !! 17%N = None
    ∧ objects m' !! 16%N = Some (Buffer 7%N 64%N 4%N).
Proof. eexists. split; [reflexivity|]. repeat split; vm_compute; reflexivity. Qed.

(** ** The USM guard of [gemm_generic] *)

(** Without [DNNL_SYCL_INTEL], the USM entry points of [gemm] are refused by
    an exception that carries [status::runtime_error]. *)
Lemma gemm_generic_usm_check_throws :
  gemm_generic_usm_check false memory_api_kind_t.usm
  = Throws (dnnl_error runtime_error "USM interface is not supported.")
  ∧ gemm_generic_usm_check false memory_api_kind_t.buffer = Normal tt
  ∧ ∀ kind, gemm_generic_usm_check true kind = Normal tt.
Proof. repeat split. Qed.

End StorageFacts.

(** * Further properties of the kernel *)

(** ** Failures of [parallel_for] *)

Lemma bind_args_unsupported cfg `{RT : compute_runtime} args : ∀ cgh i,
  usm_assert_fails cfg = false →
  scalars_supported args = false →
  bind_args cfg cgh i args =
    if NDEBUG cfg then Throws (std_runtime_error "Internal error")
    else Aborts "Please add another case".
Proof.
  induction args as [|arg rest IH]; intros cgh i Hcfg Hbad; [done|].
  simpl in Hbad. cbn [bind_args].
  destruct (arg_binds cfg arg) eqn:Harg.
  - rewrite bind_arg_binds by done. simpl. apply IH; [done|].
    destruct arg as [[s|]|size value]; simpl in *; [done|done|].
    by rewrite Harg in Hbad.
  - destruct arg as [[s|]|size value]; simpl in Harg.
    + by rewrite Hcfg in Harg.
    + done.
    + simpl. rewrite set_scalar_arg_eq, Harg. by destruct (NDEBUG cfg).
Qed.

(** X1: once the entry assertion and the zero-range test are passed, the
    failures of [parallel_for] are decided in a fixed order.  A kernel that
    cannot be constructed makes the call throw before any argument is
    looked at; with a kernel, one scalar of unsupported width anywhere in
    the list makes the whole call fail (the exception with [NDEBUG], the
    failed assertion otherwise), whatever the other arguments are. *)
Theorem parallel_for_failure_order cfg `{RT : compute_runtime} self stream range args :
  usm_assert_fails cfg = false →
  is_zero range = false →
  (kernel_constructible (ocl_kernel_ self) (engine_context (engine stream)) = false →
   parallel_for cfg self stream range args = Throws sycl_exception)
  ∧ (kernel_constructible (ocl_kernel_ self) (engine_context (engine stream)) = true →
     scalars_supported args = false →
     parallel_for cfg self stream range args =
       if NDEBUG cfg then Throws (std_runtime_error "Internal error")
       else Aborts "Please add another case").
Proof.
  intros Hcfg Hz. split.
  - intros Hk. by rewrite parallel_for_eq, Hcfg, Hz, Hk.
  - intros Hk Hbad. rewrite parallel_for_eq, Hcfg, Hz, Hk.
    by rewrite bind_args_unsupported; [destruct (NDEBUG cfg)|..].
Qed.

Lemma parallel_for_failure_order_witness :
  usm_assert_fails buffer_build = false
  ∧ is_zero range_64 = false
  ∧ (kernel_constructible 0%N 1%N = false →
     parallel_for buffer_build (Kernel 0%N) sample_stream range_64
       [scalar_arg (api := MKLDNN_SYCL_MEMORY_API_BUFFER) 3%N int32_7]
     = Throws sycl_exception)
  ∧ (kernel_constructible 0%N 1%N = true →
     scalars_supported [scalar_arg (api := MKLDNN_SYCL_MEMORY_API_BUFFER) 3%N int32_7]
     = false →
     parallel_for buffer_build (Kernel 0%N) sample_stream range_64
       [scalar_arg (api := MKLDNN_SYCL_MEMORY_API_BUFFER) 3%N int32_7]
     = Aborts "Please add another case").
Proof.
  split; [reflexivity|]. split; [reflexivity|].
  exact (parallel_for_failure_order buffer_build (Kernel 0%N) sample_stream range_64
           [scalar_arg (api := MKLDNN_SYCL_MEMORY_API_BUFFER) 3%N int32_7]
           eq_refl eq_refl).
Defined.

(** ** Scalars through [parallel_for] *)

Lemma scalars_supported_lookup `{RT : compute_runtime} {a}
    (args : kernel_arg_list_t a) i size value :
  scalars_supported args = true →
  args !! i = Some (scalar_arg size value) →
  supported_width size = true.
Proof.
  unfold scalars_supported. intros Hall Hi.
  rewrite forallb_forall in Hall.
  apply (Hall (scalar_arg size value)).
  apply list_elem_of_In. by eapply list_elem_of_lookup_2.
Qed.

(** X2: when [parallel_for] is called with a non-zero range and makes its
    submission, every scalar argument has a width of 1, 2, 4 or 8 bytes and
    is bound, at its position in the list, as the unsigned integer of that
    width read from its bytes, in every build; no slot at or beyond the
    length of the list is bound. *)
Theorem parallel_for_binds_scalars cfg `{RT : compute_runtime}
    self stream range args st stream' :
  is_zero range = false →
  parallel_for cfg self stream range args = Normal (st, stream') →
  ∃ group,
    queue stream' = queue stream ++ [group]
    ∧ (∀ i size value, args !! i = Some (scalar_arg size value) →
         supported_width size = true
         ∧ kernel_args group !! i = Some (arg_uint size (load_uint size value)))
    ∧ (∀ i, length args ≤ i → kernel_args group !! i = None).
Proof.
  intros Hz Hrun.
  apply parallel_for_normal in Hrun as (_ & _ & [[Hz' _]|(_ & _ & Hargs & ->)]);
    [congruence|].
  eexists. split; [reflexivity|]. split.
  - intros i size value Hi. split; [by eapply scalars_supported_lookup|].
    by rewrite kernel_args_dispatch, kernel_args_binding_commands, Hi.
  - intros i Hi.
    rewrite kernel_args_dispatch, kernel_args_binding_commands.
    by rewrite lookup_ge_None_2.
Qed.

Lemma parallel_for_binds_scalars_witness :
  is_zero range_64 = false
  ∧ parallel_for buffer_build sample_kernel sample_stream range_64 scenario_args
    = Normal (success, scenario_stream)
  ∧ ∃ group,
      queue scenario_stream = queue sample_stream ++ [group]
      ∧ (∀ i size value, scenario_args !! i = Some (scalar_arg size value) →
           supported_width size = true
           ∧ kernel_args group !! i = Some (arg_uint size (load_uint size value)))
      ∧ (∀ i, length scenario_args ≤ i → kernel_args group !! i = None).
Proof.
  split; [reflexivity|]. split; [reflexivity|].
  exact (parallel_for_binds_scalars buffer_build sample_kernel sample_stream
           range_64 scenario_args success scenario_stream eq_refl eq_refl).
Defined.

(** ** The queue across calls *)

(** X3: a call of [parallel_for] that returns leaves the engine of the
    stream and every group already in the queue as they were, and appends
    no group for a zero range and exactly one otherwise; what it appends
    does not depend on what the queue already holds. *)
Theorem parallel_for_appends cfg `{RT : compute_runtime}
    self stream range args st stream' :
  parallel_for cfg self stream range args = Normal (st, stream') →
  ∃ groups,
    stream' = Stream (engine stream) (queue stream ++ groups)
    ∧ length groups = (if is_zero range then 0 else 1)
    ∧ ∀ q, parallel_for cfg self (Stream (engine stream) q) range args
           = Normal (st, Stream (engine stream) (q ++ groups)).
Proof.
  intros Hrun.
  apply parallel_for_normal in Hrun
    as (-> & Hcfg & [[Hz ->]|(Hz & Hk & Hargs & ->)]).
  - exists []. rewrite app_nil_r, Hz. split; [by destruct stream|]. split; [done|].
    intros q. rewrite app_nil_r. by rewrite parallel_for_eq, Hcfg, Hz.
  - eexists [_]. rewrite Hz. split; [reflexivity|]. split; [done|].
    intros q. by rewrite (parallel_for_submits cfg self (Stream (engine stream) q)).
Qed.

Lemma parallel_for_appends_witness :
  parallel_for buffer_build sample_kernel sample_stream range_64 scenario_args
  = Normal (success, scenario_stream)
  ∧ ∃ groups,
      scenario_stream = Stream (engine sample_stream) (queue sample_stream ++ groups)
      ∧ length groups = (if is_zero range_64 then 0 else 1)
      ∧ ∀ q, parallel_for buffer_build sample_kernel
               (Stream (engine sample_stream) q) range_64 scenario_args
             = Normal (success, Stream (engine sample_stream) (q ++ groups)).
Proof.
  split; [reflexivity|].
  exact (parallel_for_appends buffer_build sample_kernel sample_stream range_64
           scenario_args success scenario_stream eq_refl).
Defined.

(** ** Scalars and their bytes *)

Lemma Z_to_le_le_to_Z (bs : list Byte.byte) :
  Z_to_le (length bs) (le_to_Z bs) = bs.
Proof.
  induction bs as [|b bs IH]; [done|].
  cbn [length Z_to_le le_to_Z].
  pose proof (Byte.to_N_bounded b) as Hb.
  assert (Hlt : (0 ≤ Z.of_N (Byte.to_N b) < 256)%Z) by lia.
  assert (Hmod : ((Z.of_N (Byte.to_N b) + 256 * le_to_Z bs) mod 256
                  = Z.of_N (Byte.to_N b))%Z).
  { symmetry. apply (Z.mod_unique _ 256 (le_to_Z bs)); [left; lia|lia]. }
  assert (Hdiv : ((Z.of_N (Byte.to_N b) + 256 * le_to_Z bs) / 256 = le_to_Z bs)%Z).
  { symmetry. apply (Z.div_unique _ 256 _ (Z.of_N (Byte.to_N b))); [left; lia|lia]. }
  rewrite Hmod, Hdiv, N2Z.id, Byte.of_to_N, IH. done.
Qed.

Lemma le_to_Z_inj (bs1 bs2 : list Byte.byte) :
  length bs1 = length bs2 → le_to_Z bs1 = le_to_Z bs2 → bs1 = bs2.
Proof.
  intros Hlen Heq.
  rewrite <- (Z_to_le_le_to_Z bs1), <- (Z_to_le_le_to_Z bs2). by rewrite Hlen, Heq.
Qed.

(** X4: for a supported width and values that hold at least that many
    bytes, two scalars are bound alike exactly when their first [size]
    bytes agree: no byte of the value is dropped or altered on the way to
    the slot, and no byte behind the width is read. *)
Theorem set_scalar_arg_same_binding cfg `{RT : compute_runtime}
    cgh index size (value1 value2 : list Byte.byte) :
  supported_width size = true →
  N.to_nat size ≤ length value1 →
  N.to_nat size ≤ length value2 →
  set_scalar_arg cfg cgh index size value1 = set_scalar_arg cfg cgh index size value2
  ↔ take (N.to_nat size) value1 = take (N.to_nat size) value2.
Proof.
  intros Hw Hlen1 Hlen2. rewrite !set_scalar_arg_eq, Hw. unfold load_uint. split.
  - intros [= Heq%app_inv_head]. injection Heq as Heq.
    apply le_to_Z_inj; [|done]. rewrite !length_take. lia.
  - by intros ->.
Qed.

Lemma set_scalar_arg_same_binding_witness :
  supported_width 4 = true
  ∧ N.to_nat 4 ≤ length int32_7
  ∧ N.to_nat 4 ≤ length (int32_7 ++ [Byte.xff])
  ∧ (set_scalar_arg buffer_build [] 0 4 int32_7
     = set_scalar_arg buffer_build [] 0 4 (int32_7 ++ [Byte.xff])
     ↔ take (N.to_nat 4) int32_7 = take (N.to_nat 4) (int32_7 ++ [Byte.xff])).
Proof.
  assert (H1 : N.to_nat 4 ≤ length int32_7) by (vm_compute; lia).
  assert (H2 : N.to_nat 4 ≤ length (int32_7 ++ [Byte.xff])) by (vm_compute; lia).
  split; [reflexivity|]. split; [exact H1|]. split; [exact H2|].
  exact (set_scalar_arg_same_binding buffer_build [] 0 4%N int32_7
           (int32_7 ++ [Byte.xff]) eq_refl H1 H2).
Defined.

(** ** Several wrappers *)

(** X5: destroying wrappers one after the other leaves the calls already
    made as they are and adds one [clReleaseKernel] per wrapper with a
    non-null handle, in the order of destruction; the handle value is all
    that decides, so wrappers that hold the same handle release it once
    each. *)
Theorem kernel_dtors_in_order (wrappers : list sycl_ocl_gpu_kernel_t)
    (ocl : list ocl_call) :
  foldl (λ calls self, sycl_ocl_gpu_kernel_t_dtor self calls) ocl wrappers
  = ocl ++ (clReleaseKernel <$>
              filter (λ h, h ≠ 0%N) (ocl_kernel_ <$> wrappers)).
Proof.
  revert ocl. induction wrappers as [|self rest IH]; intros ocl; simpl.
  - by rewrite app_nil_r.
  - rewrite IH. unfold sycl_ocl_gpu_kernel_t_dtor.
    destruct (N.eqb_spec (ocl_kernel_ self) 0) as [Hnull|Hlive].
    + by rewrite filter_cons_False by (intros H; by apply H).
    + rewrite filter_cons_True by done. simpl. by rewrite <- app_assoc.
Qed.

Example kernel_dtors_same_handle :
  foldl (λ calls self, sycl_ocl_gpu_kernel_t_dtor self calls) []
    [Kernel 42%N; Kernel 0%N; Kernel 42%N]
  = [clReleaseKernel 42%N; clReleaseKernel 42%N].
Proof. reflexivity. Qed.

(** * Further properties of the memory storage *)

Module StorageOwnership.
Import Storage StorageFacts.

Lemma shared_ptr_release_self (p : N) (m : memory) :
  p ≠ 0%N →
  match use_count m !! p with
  | Some (S (S n)) =>
      objects (shared_ptr_release p m) !! p = objects m !! p
      ∧ use_count (shared_ptr_release p m) !! p = Some (S n)
  | _ =>
      objects (shared_ptr_release p m) !! p = None
      ∧ use_count (shared_ptr_release p m) !! p = None
  end.
Proof.
  intros Hp. unfold shared_ptr_release.
  destruct (N.eqb_spec p 0) as [|_]; [done|].
  destruct (use_count m !! p) as [[|[|n]]|]; simpl;
    rewrite ?lookup_delete_eq, ?lookup_insert_eq; done.
Qed.

(** The memory after [set_data_handle], in one piece. *)
Lemma set_data_handle_eq self handle m buf :
  objects m !! handle = Some buf →
  set_data_handle self handle m =
    Some (success, BufferStorage (new_address m) (offset_ self),
          shared_ptr_release (buffer_ self)
            (Memory (<[new_address m := buf]> (objects m))
                    (<[new_address m := 1]> (use_count m)))).
Proof. intros Hh. unfold set_data_handle. by rewrite Hh. Qed.

Lemma set_data_handle_previous self handle m buf :
  objects m !! handle = Some buf →
  buffer_ self ≠ 0%N →
  is_Some (objects m !! buffer_ self) →
  ∃ self' m',
    set_data_handle self handle m = Some (success, self', m')
    ∧ buffer_ self' = new_address m
    ∧ match use_count m !! buffer_ self with
      | Some (S (S n)) =>
          objects m' !! buffer_ self = objects m !! buffer_ self
          ∧ use_count m' !! buffer_ self = Some (S n)
      | _ =>
          objects m' !! buffer_ self = None
          ∧ use_count m' !! buffer_ self = None
      end.
Proof.
  intros Hh Hnz [old Hold].
  rewrite (set_data_handle_eq self handle m buf Hh).
  eexists _, _. split; [reflexivity|]. split; [done|].
  destruct (new_address_fresh m) as [_ Hfresh].
  assert (Hne : new_address m ≠ buffer_ self) by congruence.
  pose proof (shared_ptr_release_self (buffer_ self)
    (Memory (<[new_address m := buf]> (objects m))
            (<[new_address m := 1]> (use_count m))) Hnz) as Hrel.
  simpl in Hrel. rewrite !lookup_insert_ne in Hrel by done.
  exact Hrel.
Qed.

(** X6: [set_data_handle] gives up the storage's ownership of its previous
    buffer object.  When other owners remain, that object stays alive with
    one owner less; when the storage was its last owner the object is
    deleted, so a handle read earlier with [get_data_handle] points to no
    buffer any more. *)
Theorem set_data_handle_releases_previous self handle m buf :
  objects m !! handle = Some buf →
  (get_data_handle self).2 ≠ 0%N →
  is_Some (objects m !! (get_data_handle self).2) →
  ∃ self' m',
    set_data_handle self handle m = Some (success, self', m')
    ∧ match use_count m !! (get_data_handle self).2 with
      | Some (S (S n)) =>
          objects m' !! (get_data_handle self).2 = objects m !! (get_data_handle self).2
          ∧ use_count m' !! (get_data_handle self).2 = Some (S n)
      | _ =>
          objects m' !! (get_data_handle self).2 = None
          ∧ use_count m' !! (get_data_handle self).2 = None
          ∧ ∀ s, set_data_handle s (get_data_handle self).2 m' = None
      end.
Proof.
  intros Hh Hnz Hlive. simpl in *.
  destruct (set_data_handle_previous self handle m buf Hh Hnz Hlive)
    as (self' & m' & Hset & _ & Hprev).
  exists self', m'. split; [done|].
  destruct (use_count m !! buffer_ self) as [[|[|n]]|]; try done;
    destruct Hprev as [Hobj Hcount]; (split; [done|]); (split; [done|]);
    intros s; unfold set_data_handle; by rewrite Hobj.
Qed.

Lemma set_data_handle_releases_previous_witness :
  objects owned_memory !! 16%N = Some (Buffer 7%N 64%N 4%N)
  ∧ (get_data_handle owning_storage).2 ≠ 0%N
  ∧ is_Some (objects owned_memory !! (get_data_handle owning_storage).2)
  ∧ ∃ self' m',
      set_data_handle owning_storage 16%N owned_memory = Some (success, self', m')
      ∧ objects m' !! 32%N = None
      ∧ use_count m' !! 32%N = None
      ∧ ∀ s, set_data_handle s 32%N m' = None.
Proof.
  assert (Hh : objects owned_memory !! 16%N = Some (Buffer 7%N 64%N 4%N))
    by (vm_compute; reflexivity).
  assert (Hnz : (get_data_handle owning_storage).2 ≠ 0%N) by discriminate.
  assert (Hlive : is_Some (objects owned_memory !! (get_data_handle owning_storage).2))
    by (vm_compute; eauto).
  split; [exact Hh|]. split; [exact Hnz|]. split; [exact Hlive|].
  exact (set_data_handle_releases_previous owning_storage 16%N owned_memory
           (Buffer 7%N 64%N 4%N) Hh Hnz Hlive).
Defined.

Example set_data_handle_shared_previous :
  ∃ self' m',
    set_data_handle owning_storage 16%N shared_memory = Some (success, self', m')
    ∧ objects m' !! 32%N = Some (Buffer 9%N 128%N 1%N)
    ∧ use_count m' !! 32%N = Some 1.
Proof. eexists _, _. split; [reflexivity|]. split; vm_compute; reflexivity. Qed.

(** X7: handing a storage its own handle back
    ([set_data_handle(get_data_handle())]) is safe when the storage is the
    only owner of a live buffer: the copy is taken before the old object is
    deleted, so the storage ends with a new object equal to the old one, on
    the same allocation, the old address is dead, and the number of live
    buffer objects is unchanged. *)
Theorem set_data_handle_own_handle self m buf :
  (get_data_handle self).2 ≠ 0%N →
  objects m !! (get_data_handle self).2 = Some buf →
  use_count m !! (get_data_handle self).2 = Some 1 →
  ∃ self' m',
    set_data_handle self (get_data_handle self).2 m = Some (success, self', m')
    ∧ (get_data_handle self').2 ≠ (get_data_handle self).2
    ∧ objects m' !! (get_data_handle self').2 = Some buf
    ∧ objects m' !! (get_data_handle self).2 = None
    ∧ objects m' =
        <[(get_data_handle self').2 := buf]> (delete (get_data_handle self).2 (objects m))
    ∧ size (objects m') = size (objects m).
Proof.
  simpl. intros Hnz Hobj Hcount.
  rewrite (set_data_handle_eq self (buffer_ self) m buf Hobj).
  destruct (new_address_fresh m) as [_ Hfresh].
  assert (Hne : new_address m ≠ buffer_ self) by congruence.
  eexists _, _. split; [reflexivity|]. simpl.
  unfold shared_ptr_release. simpl.
  destruct (N.eqb_spec (buffer_ self) 0) as [|_]; [done|].
  rewrite lookup_insert_ne, Hcount by done. simpl.
  split; [done|].
  split; [by rewrite lookup_delete_ne, lookup_insert_eq|].
  split; [by rewrite lookup_delete_eq|].
  split; [by rewrite delete_insert_ne|].
  rewrite delete_insert_ne by congruence.
  rewrite map_size_insert_None by (by rewrite lookup_delete_ne).
  rewrite <- (insert_id (objects m) (buffer_ self) buf Hobj) at 2.
  rewrite <- insert_delete_eq.
  by rewrite map_size_insert_None by apply lookup_delete_eq.
Qed.

Lemma set_data_handle_own_handle_witness :
  (get_data_handle owning_storage).2 ≠ 0%N
  ∧ objects owned_memory !! (get_data_handle owning_storage).2
    = Some (Buffer 9%N 128%N 1%N)
  ∧ use_count owned_memory !! (get_data_handle owning_storage).2 = Some 1
  ∧ ∃ self' m',
      set_data_handle owning_storage (get_data_handle owning_storage).2 owned_memory
      = Some (success, self', m')
      ∧ (get_data_handle self').2 ≠ (get_data_handle owning_storage).2
      ∧ objects m' !! (get_data_handle self').2 = Some (Buffer 9%N 128%N 1%N)
      ∧ objects m' !! (get_data_handle owning_storage).2 = None
      ∧ objects m' =
          <[(get_data_handle self').2 := Buffer 9%N 128%N 1%N]>
            (delete (get_data_handle owning_storage).2 (objects owned_memory))
      ∧ size (objects m') = size (objects owned_memory).
Proof.
  assert (Hnz : (get_data_handle owning_storage).2 ≠ 0%N) by discriminate.
  assert (Hobj : objects owned_memory !! (get_data_handle owning_storage).2
                 = Some (Buffer 9%N 128%N 1%N)) by (vm_compute; reflexivity).
  assert (Hcount : use_count owned_memory !! (get_data_handle owning_storage).2
                   = Some 1) by (vm_compute; reflexivity).
  split; [exact Hnz|]. split; [exact Hobj|]. split; [exact Hcount|].
  exact (set_data_handle_own_handle owning_storage owned_memory
           (Buffer 9%N 128%N 1%N) Hnz Hobj Hcount).
Defined.

(** X8: two calls of [set_data_handle] in a row leave nothing behind: the
    object made by the first call is deleted by the second, the storage
    ends as the only owner of a copy of the second buffer, and the two
    buffers of the caller are still alive and unchanged. *)
Theorem set_data_handle_twice self h1 h2 m buf1 buf2 :
  objects m !! h1 = Some buf1 →
  objects m !! h2 = Some buf2 →
  storage_ok self m →
  h1 ≠ buffer_ self →
  h2 ≠ buffer_ self →
  ∃ self1 m1 self2 m2,
    set_data_handle self h1 m = Some (success, self1, m1)
    ∧ set_data_handle self1 h2 m1 = Some (success, self2, m2)
    ∧ objects m2 !! buffer_ self2 = Some buf2
    ∧ use_count m2 !! buffer_ self2 = Some 1
    ∧ objects m2 !! buffer_ self1 = None
    ∧ use_count m2 !! buffer_ self1 = None
    ∧ objects m2 !! h1 = Some buf1
    ∧ objects m2 !! h2 = Some buf2.
Proof.
  intros Hh1 Hh2 Hok Hold1 Hold2.
  destruct (set_data_handle_spec self h1 m buf1 Hh1 Hok)
    as (self1 & m1 & Hset1 & Hnew1 & _ & Hobj1 & Hcount1 & Hframe1).
  destruct (new_address_fresh m) as [Hnz1 Hfresh1].
  assert (Hh1p : h1 ≠ buffer_ self1) by congruence.
  assert (Hh2p : h2 ≠ buffer_ self1) by congruence.
  assert (Hh1' : objects m1 !! h1 = Some buf1) by (by rewrite Hframe1).
  assert (Hh2' : objects m1 !! h2 = Some buf2) by (by rewrite Hframe1).
  assert (Hok1 : storage_ok self1 m1) by (right; eauto).
  destruct (set_data_handle_spec self1 h2 m1 buf2 Hh2' Hok1)
    as (self2 & m2 & Hset2 & Hnew2 & _ & Hobj2 & Hcount2 & Hframe2).
  destruct (set_data_handle_previous self1 h2 m1 buf2 Hh2')
    as (self2' & m2' & Hset2' & _ & Hprev); [congruence|eauto|].
  rewrite Hset2 in Hset2'. injection Hset2' as <- <-.
  rewrite Hcount1 in Hprev. destruct Hprev as [Hgone Hgone'].
  destruct (new_address_fresh m1) as [_ Hfresh2].
  exists self1, m1, self2, m2.
  split; [done|]. split; [done|]. split; [done|]. split; [done|].
  split; [done|]. split; [done|].
  split; (rewrite Hframe2; [done|done|congruence]).
Qed.

Lemma set_data_handle_twice_witness :
  objects owned_memory !! 16%N = Some (Buffer 7%N 64%N 4%N)
  ∧ objects owned_memory !! 32%N = Some (Buffer 9%N 128%N 1%N)
  ∧ storage_ok empty_storage owned_memory
  ∧ 16%N ≠ buffer_ empty_storage
  ∧ 32%N ≠ buffer_ empty_storage
  ∧ ∃ self1 m1 self2 m2,
      set_data_handle empty_storage 16%N owned_memory = Some (success, self1, m1)
      ∧ set_data_handle self1 32%N m1 = Some (success, self2, m2)
      ∧ objects m2 !! buffer_ self2 = Some (Buffer 9%N 128%N 1%N)
      ∧ use_count m2 !! buffer_ self2 = Some 1
      ∧ objects m2 !! buffer_ self1 = None
      ∧ use_count m2 !! buffer_ self1 = None
      ∧ objects m2 !! 16%N = Some (Buffer 7%N 64%N 4%N)
      ∧ objects m2 !! 32%N = Some (Buffer 9%N 128%N 1%N).
Proof.
  assert (H1 : objects owned_memory !! 16%N = Some (Buffer 7%N 64%N 4%N))
    by (vm_compute; reflexivity).
  assert (H2 : objects owned_memory !! 32%N = Some (Buffer 9%N 128%N 1%N))
    by (vm_compute; reflexivity).
  assert (Hok : storage_ok empty_storage owned_memory) by (left; reflexivity).
  assert (Hn1 : 16%N ≠ buffer_ empty_storage) by discriminate.
  assert (Hn2 : 32%N ≠ buffer_ empty_storage) by discriminate.
  split; [exact H1|]. split; [exact H2|]. split; [exact Hok|].
  split; [exact Hn1|]. split; [exact Hn2|].
  exact (set_data_handle_twice empty_storage 16%N 32%N owned_memory
           (Buffer 7%N 64%N 4%N) (Buffer 9%N 128%N 1%N) H1 H2 Hok Hn1 Hn2).
Defined.

End StorageOwnership.

(** * Further properties of [create_memory_t] *)

Module CreateMemory.
Import Storage StorageFacts StorageOwnership.

(** X9: on a [memory_t] that holds no buffer yet,
    [create_memory_t<buffer>::call] changes the live buffer objects by
    exactly one: the storage's own object, a byte view of the caller's
    buffer, at an address that was free, with the storage as its only
    owner.  The local [buf_u8] is gone when the call returns, and every
    other object and owner count is as before. *)
Theorem create_memory_buffer_call_footprint sizeof_T mem offset handle m buf :
  objects m !! handle = Some buf →
  buffer_ mem = 0%N →
  ∃ mem' m',
    create_memory_buffer_call sizeof_T mem offset handle m = Some (mem', m')
    ∧ buffer_ mem' ≠ 0%N
    ∧ objects m !! buffer_ mem' = None
    ∧ objects m' = <[buffer_ mem' := reinterpret_u8 buf (get_size buf)]> (objects m)
    ∧ use_count m' = <[buffer_ mem' := 1]> (use_count m).
Proof.
  intros Hh Hempty. unfold create_memory_buffer_call. rewrite Hh. simpl.
  destruct (new_address_fresh m) as [_ Hlocal].
  set (local := new_address m) in *.
  set (b8 := reinterpret_u8 buf (get_size buf)).
  set (m1 := Memory (<[local := b8]> (objects m)) (use_count m)).
  assert (Hb8 : objects m1 !! local = Some b8) by (simpl; by rewrite lookup_insert_eq).
  rewrite (set_data_handle_eq mem local m1 b8 Hb8). simpl.
  destruct (new_address_fresh m1) as [Hnz Hfresh].
  set (p := new_address m1) in *.
  assert (Hne : p ≠ local).
  { intros Heq. rewrite Heq, Hb8 in Hfresh. done. }
  unfold shared_ptr_release. rewrite Hempty. simpl.
  eexists _, _. split; [reflexivity|]. simpl.
  split; [done|].
  split.
  { simpl in Hfresh. by rewrite lookup_insert_ne in Hfresh. }
  split; [|done].
  rewrite delete_insert_ne by done.
  by rewrite delete_insert_eq, delete_id.
Qed.

Lemma create_memory_buffer_call_footprint_witness :
  objects sample_memory !! 16%N = Some (Buffer 7%N 64%N 4%N)
  ∧ buffer_ empty_storage = 0%N
  ∧ ∃ mem' m',
      create_memory_buffer_call 4 empty_storage 16 16%N sample_memory = Some (mem', m')
      ∧ buffer_ mem' ≠ 0%N
      ∧ objects sample_memory !! buffer_ mem' = None
      ∧ objects m' =
          <[buffer_ mem' := reinterpret_u8 (Buffer 7%N 64%N 4%N)
                              (get_size (Buffer 7%N 64%N 4%N))]>
            (objects sample_memory)
      ∧ use_count m' = <[buffer_ mem' := 1]> (use_count sample_memory).
Proof.
  assert (Hh : objects sample_memory !! 16%N = Some (Buffer 7%N 64%N 4%N))
    by (vm_compute; reflexivity).
  split; [exact Hh|]. split; [reflexivity|].
  exact (create_memory_buffer_call_footprint 4 empty_storage 16 16%N sample_memory
           (Buffer 7%N 64%N 4%N) Hh eq_refl).
Defined.

(** X10: the buffer that a storage built by [create_memory_t<buffer>::call]
    returns from [buffer()] is on the caller's allocation and spans the
    same number of bytes; passed as a global argument in a buffer build,
    it is what [parallel_for] binds at the slot, as a read-write accessor,
    in the one group it submits. *)
Theorem created_storage_reaches_kernel `{RT : compute_runtime}
    sizeof_T mem offset handle m buf ndebug self stream range :
  objects m !! handle = Some buf →
  storage_ok mem m →
  is_zero range = false →
  kernel_constructible (ocl_kernel_ self) (engine_context (engine stream)) = true →
  ∃ mem' m' bound,
    create_memory_buffer_call sizeof_T mem offset handle m = Some (mem', m')
    ∧ buffer mem' m' = Some bound
    ∧ mem_object bound = mem_object buf
    ∧ get_size bound = get_size buf
    ∧ parallel_for (Build MKLDNN_SYCL_MEMORY_API_BUFFER ndebug) self stream range
        [global_arg (api := MKLDNN_SYCL_MEMORY_API_BUFFER) (Some bound)]
      = Normal (success,
          Stream (engine stream)
            (queue stream ++
               [[set_arg 0 (arg_accessor read_write bound);
                 dispatch_of range
                   (SyclKernel (ocl_kernel_ self) (engine_context (engine stream)))]])).
Proof.
  intros Hh Hok Hz Hk.
  destruct (create_memory_buffer_call_spec sizeof_T mem offset handle m buf Hh Hok)
    as (mem' & m' & Hcall & _ & Hobj & _).
  exists mem', m', (reinterpret_u8 buf (get_size buf)).
  split; [done|]. split; [done|]. split; [done|].
  split; [unfold get_size; simpl; lia|].
  by rewrite (parallel_for_submits (Build MKLDNN_SYCL_MEMORY_API_BUFFER ndebug)).
Qed.

Lemma created_storage_reaches_kernel_witness :
  objects sample_memory !! 16%N = Some (Buffer 7%N 64%N 4%N)
  ∧ storage_ok empty_storage sample_memory
  ∧ is_zero range_64 = false
  ∧ kernel_constructible (ocl_kernel_ sample_kernel)
      (engine_context (engine sample_stream)) = true
  ∧ ∃ mem' m' bound,
      create_memory_buffer_call 4 empty_storage 16 16%N sample_memory = Some (mem', m')
      ∧ buffer mem' m' = Some bound
      ∧ mem_object bound = 7%N
      ∧ get_size bound = 256%N
      ∧ parallel_for buffer_build sample_kernel sample_stream range_64
          [global_arg (api := MKLDNN_SYCL_MEMORY_API_BUFFER) (Some bound)]
        = Normal (success,
            Stream (engine sample_stream)
              (queue sample_stream ++
                 [[set_arg 0 (arg_accessor read_write bound);
                   dispatch_of range_64
                     (SyclKernel (ocl_kernel_ sample_kernel)
                        (engine_context (engine sample_stream)))]])).
Proof.
  assert (Hh : objects sample_memory !! 16%N = Some (Buffer 7%N 64%N 4%N))
    by (vm_compute; reflexivity).
  assert (Hok : storage_ok empty_storage sample_memory) by (left; reflexivity).
  split; [exact Hh|]. split; [exact Hok|]. split; [reflexivity|]. split; [reflexivity|].
  exact (created_storage_reaches_kernel 4 empty_storage 16 16%N sample_memory
           (Buffer 7%N 64%N 4%N) false sample_kernel sample_stream range_64
           Hh Hok eq_refl eq_refl).
Defined.

End CreateMemory.


(** * Properties of the GEMM entry points *)

Module GemmFacts.
Import Storage Gemm.

(** ** Outcomes of the building blocks *)

Lemma step_normal (o : outcome unit) `{L : gemm_library} (rest : run) :
  (step o rest).2 = Normal tt ↔ o = Normal tt ∧ rest.2 = Normal tt.
Proof. destruct o as [[]| |]; simpl; intuition discriminate. Qed.

Lemma scoped_outcome `{L : gemm_library} (r : resource) (body : run) :
  (scoped r body).2 = body.2.
Proof. unfold scoped. by destruct body.2. Qed.

Lemma wrap_c_api_normal (s : status_t) (message : string) :
  wrap_c_api s message = Normal tt ↔ s = success.
Proof. destruct s; simpl; intuition discriminate. Qed.

Lemma c_assert_normal cfg (cond : bool) (expr : string) :
  c_assert cfg cond expr = Normal tt ↔ NDEBUG cfg = true ∨ cond = true.
Proof. unfold c_assert. destruct (NDEBUG cfg), cond; intuition discriminate. Qed.

Lemma gemm_generic_usm_check_normal intel kind :
  gemm_generic_usm_check intel kind = Normal tt
  ↔ intel = true ∨ kind = memory_api_kind_t.buffer.
Proof. destruct intel, kind; simpl; intuition discriminate. Qed.

Lemma is_success_true (s : status_t) : is_success s = true ↔ s = success.
Proof. destruct s; simpl; intuition discriminate. Qed.

(** ** Membership in the building blocks *)

Lemma step_executed (o : outcome unit) `{L : gemm_library} (rest : run) :
  executed ∈ (step o rest).1 ↔ o = Normal tt ∧ executed ∈ rest.1.
Proof.
  destruct o as [[]| |]; simpl; rewrite ?elem_of_nil; intuition discriminate.
Qed.

Lemma scoped_executed `{L : gemm_library} (r : resource) (body : run) :
  executed ∈ (scoped r body).1 ↔ executed ∈ body.1.
Proof.
  unfold scoped. destruct body as [t o]. destruct o; simpl;
    rewrite ?elem_of_cons, ?elem_of_app, ?list_elem_of_singleton;
    intuition discriminate.
Qed.

(** ** Creation order and balance *)







Example gemm_generic_execute_fails :
  gemm_generic (L := library_failing [call_execute]) buffer_build true
    memory_api_kind_t.buffer f32 gpu_queue "n" "t" 2 3 4 1%Z 10%N 0 2 20%N 0 4 0%Z
    30%N 0 2
  = (take 9 (gemm_full_run (L := library_failing [call_execute])
               memory_api_kind_t.buffer f32 "n" "t" 2 3 4 1%Z 10%N 0 2 20%N 0 4 0%Z
               30%N 0 2)
     ++ drop 10 (gemm_full_run (L := library_failing [call_execute])
                   memory_api_kind_t.buffer f32 "n" "t" 2 3 4 1%Z 10%N 0 2 20%N 0 4 0%Z
                   30%N 0 2),
     Throws (dnnl_error runtime_error "could not execute a primitive")).
Proof. reflexivity. Qed.

Example gemm_generic_descriptor_assert :
  gemm_generic (L := library_failing [call_desc 1]) buffer_build true
    memory_api_kind_t.buffer f32 gpu_queue "n" "t" 2 3 4 1%Z 10%N 0 2 20%N 0 4 0%Z
    30%N 0 2
  = ([created (the_engine gpu); created the_stream],
     Aborts "status == status::success").
Proof. reflexivity. Qed.

(** ** When a call goes through *)

Lemma gemm_generic_executed_ready cfg `{L : gemm_library} intel kind data_type
    queue transa transb m n k alpha a offset_a lda b offset_b ldb beta c offset_c ldc :
  executed ∈ (gemm_generic cfg intel kind data_type queue transa transb m n k alpha
                a offset_a lda b offset_b ldb beta c offset_c ldc).1
  ↔ ready cfg intel kind data_type queue transa transb m n k alpha lda ldb beta ldc.
Proof.
  unfold gemm_generic, ready. cbv zeta.
  repeat first [rewrite step_executed | rewrite scoped_executed].
  unfold after. cbn [fst snd].
  rewrite gemm_generic_usm_check_normal, !wrap_c_api_normal, !c_assert_normal,
    !is_success_true.
  destruct (is_cpu (get_device queue)), (is_host (get_device queue)); cbn;
    rewrite ?wrap_c_api_normal, ?c_assert_normal, ?elem_of_cons;
    intuition discriminate.
Qed.

(** X12: [gemm_generic] returns normally exactly when the USM guard lets
    the call pass, the arguments are accepted, the device is neither a CPU
    nor the host, the engine, the stream, the primitive descriptor and the
    primitive are created, and [execute] and [wait] succeed.  The two kinds
    of [assert] count only in a build with assertions: with [NDEBUG] a
    device that is not a GPU is taken for one, and the statuses of the three
    memory descriptors are not looked at. *)
Theorem gemm_generic_returns_iff cfg `{L : gemm_library} intel kind data_type
    queue transa transb m n k alpha a offset_a lda b offset_b ldb beta c offset_c ldc :
  (gemm_generic cfg intel kind data_type queue transa transb m n k alpha
     a offset_a lda b offset_b ldb beta c offset_c ldc).2 = Normal tt
  ↔ ready cfg intel kind data_type queue transa transb m n k alpha lda ldb beta ldc
    ∧ execute (GemmDesc (transpose_of transa) (transpose_of transb) m n k lda ldb ldc
                 alpha beta data_type data_type data_type) = success
    ∧ wait queue = success.
Proof.
  unfold gemm_generic, ready. cbv zeta.
  repeat first [rewrite step_normal | rewrite scoped_outcome].
  unfold after. cbn [fst snd].
  repeat first [rewrite step_normal | rewrite scoped_outcome].
  cbn [fst snd].
  rewrite gemm_generic_usm_check_normal, !wrap_c_api_normal, !c_assert_normal,
    !is_success_true.
  destruct (is_cpu (get_device queue)), (is_host (get_device queue)); cbn;
    rewrite ?wrap_c_api_normal, ?c_assert_normal;
    intuition discriminate.
Qed.

Lemma step_ok (o : outcome unit) `{L : gemm_library} (rest : run) :
  o = Normal tt → step o rest = rest.
Proof. by intros ->. Qed.

(** The run that follows once every step before [execute] has succeeded. *)
Lemma gemm_generic_ready_run cfg `{L : gemm_library} intel kind data_type
    queue transa transb m n k alpha a offset_a lda b offset_b ldb beta c offset_c ldc :
  ready cfg intel kind data_type queue transa transb m n k alpha lda ldb beta ldc →
  gemm_generic cfg intel kind data_type queue transa transb m n k alpha
    a offset_a lda b offset_b ldb beta c offset_c ldc
  = let resources :=
      gemm_resources kind data_type transa transb m n k alpha
        a offset_a lda b offset_b ldb beta c offset_c ldc in
    let status :=
      execute (GemmDesc (transpose_of transa) (transpose_of transb) m n k lda ldb ldc
                 alpha beta data_type data_type data_type) in
    ((created <$> resources)
     ++ [executed; destroyed the_primitive]
     ++ (if is_success status then [waited] else [])
     ++ (destroyed <$> reverse (take 6 resources)),
     if is_success status then wrap_c_api (wait queue) "could not wait a stream"
     else wrap_c_api status "could not execute a primitive").
Proof.
  intros (Hguard & Hcheck & Hcpu & Hhost & Hgpu & Heng & Hstream & Hdesc & Hpd & Hprim).
  unfold gemm_generic, gemm_resources. cbv zeta.
  rewrite Hcpu, Hhost. cbn [orb].
  rewrite (step_ok (gemm_generic_usm_check intel kind))
    by (by apply gemm_generic_usm_check_normal).
  rewrite (step_ok (wrap_c_api _ "invalid arguments"))
    by (by apply wrap_c_api_normal).
  rewrite (step_ok (c_assert cfg (is_gpu _) _)) by (by apply c_assert_normal).
  rewrite Heng, Hstream, Hpd, Hprim. cbn [wrap_c_api step].
  rewrite !(step_ok (c_assert cfg (is_success _) _))
    by (apply c_assert_normal; rewrite is_success_true; tauto).
  destruct (execute _) eqn:Hexec; cbn [is_success];
    destruct (wait queue); reflexivity.
Qed.

(** X13: [execute] is called exactly when every earlier step has
    succeeded, and then once only, with the release of the primitive as
    the very next event: the primitive never outlives a failed [execute],
    and never runs for a CPU or host device or behind a rejected
    argument. *)
Theorem gemm_generic_executes_once cfg `{L : gemm_library} intel kind data_type
    queue transa transb m n k alpha a offset_a lda b offset_b ldb beta c offset_c ldc :
  (executed ∈ (gemm_generic cfg intel kind data_type queue transa transb m n k alpha
                 a offset_a lda b offset_b ldb beta c offset_c ldc).1
   ↔ ready cfg intel kind data_type queue transa transb m n k alpha lda ldb beta ldc)
  ∧ (executed ∈ (gemm_generic cfg intel kind data_type queue transa transb m n k alpha
                   a offset_a lda b offset_b ldb beta c offset_c ldc).1 →
     ∃ before rest,
       (gemm_generic cfg intel kind data_type queue transa transb m n k alpha
          a offset_a lda b offset_b ldb beta c offset_c ldc).1
       = before ++ executed :: destroyed the_primitive :: rest
       ∧ (executed ∉ before) ∧ (executed ∉ rest)).
Proof.
  split; [apply gemm_generic_executed_ready|].
  intros Hready%gemm_generic_executed_ready.
  rewrite (gemm_generic_ready_run cfg _ _ _ _ _ _ _ _ _ _ a offset_a _ b offset_b _ _
             c offset_c _ Hready).
  cbv zeta. cbn [fst]. eexists _, _. split; [reflexivity|].
  unfold gemm_resources. split.
  - cbn. rewrite !elem_of_cons, elem_of_nil. intuition discriminate.
  - destruct (is_success _); cbn;
      rewrite !elem_of_cons, elem_of_nil; intuition discriminate.
Qed.

(** ** How a call fails *)




(** ** The public overloads *)

(** X15: a call of a buffer overload of [gemm] in which no step fails runs
    the primitive of the swapped problem: the descriptor has [n] in the
    place of [m], each transposition flag and each leading dimension in
    the place of the other, the first memory is made of [b] with
    [offset_b], the second of [a] with [offset_a], and [c] stays the
    third, whether or not [DNNL_SYCL_INTEL] is defined. *)
Theorem gemm_buffer_swaps_operands cfg `{L : gemm_library} data_type intel queue
    transa transb m n k alpha a offset_a lda b offset_b ldb beta c offset_c ldc :
  ready cfg intel memory_api_kind_t.buffer data_type queue transb transa n m k
    alpha ldb lda beta ldc →
  execute (GemmDesc (transpose_of transb) (transpose_of transa) n m k ldb lda ldc
             alpha beta data_type data_type data_type) = success →
  wait queue = success →
  gemm_buffer cfg data_type intel queue transa transb m n k alpha
    a offset_a lda b offset_b ldb beta c offset_c ldc
  = (gemm_full_run memory_api_kind_t.buffer data_type transb transa n m k alpha
       b offset_b ldb a offset_a lda beta c offset_c ldc,
     Normal tt).
Proof.
  intros Hready Hexec Hwait. unfold gemm_buffer.
  rewrite (gemm_generic_ready_run cfg _ _ _ _ _ _ _ _ _ _ b offset_b _ a offset_a _ _
             c offset_c _ Hready).
  cbv zeta. by rewrite Hexec, Hwait.
Qed.

Lemma gemm_buffer_swaps_operands_witness :
  ready (L := library_failing []) buffer_build false memory_api_kind_t.buffer f32
    gpu_queue "t" "n" 3 2 4 1%Z 3 4 0%Z 3
  ∧ gemm_buffer (L := library_failing []) buffer_build f32 false gpu_queue
      "n" "t" 2 3 4 1%Z 10%N 5 4 20%N 7 3 0%Z 30%N 0 3
    = (gemm_full_run (L := library_failing []) memory_api_kind_t.buffer f32
         "t" "n" 3 2 4 1%Z 20%N 7 3 10%N 5 4 0%Z 30%N 0 3,
       Normal tt).
Proof.
  assert (Hready : ready (L := library_failing []) buffer_build false
                     memory_api_kind_t.buffer f32 gpu_queue "t" "n" 3 2 4 1%Z 3 4 0%Z 3)
    by (unfold ready; cbn; tauto).
  split; [exact Hready|].
  exact (gemm_buffer_swaps_operands (L := library_failing []) buffer_build f32 false
           gpu_queue "n" "t" 2 3 4 1%Z 10%N 5 4 20%N 7 3 0%Z 30%N 0 3
           Hready eq_refl eq_refl).
Defined.

(** X16: a call of a USM overload of [gemm] in which no step fails runs
    the swapped problem on the raw pointers, each memory at offset 0; the
    same call in a build without [DNNL_SYCL_INTEL] is refused by the
    exception "USM interface is not supported." before anything is checked
    or created. *)
Theorem gemm_usm_needs_intel cfg `{L : gemm_library} data_type queue
    transa transb m n k alpha a lda b ldb beta c ldc :
  ready cfg true memory_api_kind_t.usm data_type queue transb transa n m k
    alpha ldb lda beta ldc →
  execute (GemmDesc (transpose_of transb) (transpose_of transa) n m k ldb lda ldc
             alpha beta data_type data_type data_type) = success →
  wait queue = success →
  gemm_usm cfg data_type true queue transa transb m n k alpha a lda b ldb beta c ldc
  = (gemm_full_run memory_api_kind_t.usm data_type transb transa n m k alpha
       b 0 ldb a 0 lda beta c 0 ldc,
     Normal tt)
  ∧ gemm_usm cfg data_type false queue transa transb m n k alpha a lda b ldb beta c ldc
    = ([], Throws (dnnl_error runtime_error "USM interface is not supported.")).
Proof.
  intros Hready Hexec Hwait. split; [|reflexivity]. unfold gemm_usm.
  rewrite (gemm_generic_ready_run cfg _ _ _ _ _ _ _ _ _ _ b 0 _ a 0 _ _ c 0 _ Hready).
  cbv zeta. by rewrite Hexec, Hwait.
Qed.

Lemma gemm_usm_needs_intel_witness :
  ready (L := library_failing []) usm_release_build true memory_api_kind_t.usm f16
    gpu_queue "n" "N" 3 2 4 1%Z 3 4 0%Z 3
  ∧ gemm_usm (L := library_failing []) usm_release_build f16 true gpu_queue
      "N" "n" 2 3 4 1%Z 10%N 4 20%N 3 0%Z 30%N 3
    = (gemm_full_run (L := library_failing []) memory_api_kind_t.usm f16
         "n" "N" 3 2 4 1%Z 20%N 0 3 10%N 0 4 0%Z 30%N 0 3,
       Normal tt)
  ∧ gemm_usm (L := library_failing []) usm_release_build f16 false gpu_queue
      "N" "n" 2 3 4 1%Z 10%N 4 20%N 3 0%Z 30%N 3
    = ([], Throws (dnnl_error runtime_error "USM interface is not supported.")).
Proof.
  assert (Hready : ready (L := library_failing []) usm_release_build true
                     memory_api_kind_t.usm f16 gpu_queue "n" "N" 3 2 4 1%Z 3 4 0%Z 3)
    by (unfold ready; cbn; tauto).
  split; [exact Hready|].
  exact (gemm_usm_needs_intel (L := library_failing []) usm_release_build f16
           gpu_queue "N" "n" 2 3 4 1%Z 10%N 4 20%N 3 0%Z 30%N 3
           Hready eq_refl eq_refl).
Defined.

Example gemm_buffer_run :
  gemm_buffer (L := library_failing []) buffer_build f32 false gpu_queue
    "n" "t" 2 3 4 1%Z 10%N 5 4 20%N 7 3 0%Z 30%N 0 3
  = ([created (the_engine gpu); created the_stream;
      created (the_pd (L := library_failing [])
                 (GemmDesc trans notrans 3 2 4 3 4 3 1%Z 0%Z f32 f32 f32));
      created (the_memory 0 memory_api_kind_t.buffer 7 20%N);
      created (the_memory 1 memory_api_kind_t.buffer 5 10%N);
      created (the_memory 2 memory_api_kind_t.buffer 0 30%N);
      created the_primitive; executed; destroyed the_primitive; waited;
      destroyed (the_memory 2 memory_api_kind_t.buffer 0 30%N);
      destroyed (the_memory 1 memory_api_kind_t.buffer 5 10%N);
      destroyed (the_memory 0 memory_api_kind_t.buffer 7 20%N);
      destroyed (the_pd (L := library_failing [])
                   (GemmDesc trans notrans 3 2 4 3 4 3 1%Z 0%Z f32 f32 f32));
      destroyed the_stream; destroyed (the_engine gpu)],
     Normal tt).
Proof. reflexivity. Qed.

End GemmFacts.
